(** * github-activity: the formatter, the fetcher and the entry point

    A shallow embedding of [main.go].  Go strings are byte sequences, so
    they are Rocq [string]s (lists of 8-bit [ascii]); byte arithmetic is
    done on the codes in [N].  The parts of the Go standard library the
    program calls ([encoding/json], [strconv], [unicode/utf8], [fmt]) are
    modelled in their own modules first, then the program itself. *)

From Stdlib Require Import String Ascii List NArith ZArith Bool Lia.
From Stdlib Require Import DecimalString.
Import ListNotations.
Open Scope string_scope.

(** ** Bytes *)

Definition code (c : ascii) : N := N_of_ascii c.

(** Conversion of an integer to a byte keeps the low eight bits. *)
Definition byte (n : N) : ascii := ascii_of_N (n mod 256).

Definition between (lo hi : N) (c : ascii) : bool :=
  ((lo <=? code c) && (code c <=? hi))%N.

Definition dquote : ascii := byte 34.
Definition backslash : ascii := byte 92.

Fixpoint skip (n : nat) (s : string) : string :=
  match n, s with
  | S k, String _ t => skip k t
  | _, _ => s
  end.

(** [s[:n]] *)
Fixpoint prefix_of (n : nat) (s : string) : string :=
  match n, s with
  | S k, String c t => String c (prefix_of k t)
  | _, _ => EmptyString
  end.

(** What a Go function with an [error] result returns. *)
Inductive result (E A : Type) : Type :=
| Ok (a : A)
| Err (e : E).
Arguments Ok {E A} a.
Arguments Err {E A} e.

Definition bind {E A B} (r : result E A) (k : A -> result E B) : result E B :=
  match r with
  | Ok a => k a
  | Err e => Err e
  end.

Notation "x <- r ;; k" := (bind r (fun x => k))
  (at level 61, r at next level, right associativity).

(** ** unicode/utf8 *)

Module utf8.

Definition RuneError : N := 0xFFFD.
Definition RuneSelf : N := 0x80.
Definition MaxRune : N := 0x10FFFF.

Definition isCont (c : ascii) : bool := between 0x80 0xBF c.

Definition ValidRune (r : N) : bool :=
  ((r <? 0xD800) || ((0xDFFF <? r) && (r <=? MaxRune)))%N.

(** [DecodeRuneInString]: the rune at the head of [s] and its width in
    bytes; [(RuneError, 0)] on the empty string and [(RuneError, 1)] on an
    encoding that is invalid, too short, over-long, a surrogate or out of
    range. *)
Definition DecodeRuneInString (s : string) : N * nat :=
  match s with
  | EmptyString => (RuneError, 0)
  | String c0 t0 =>
    let b0 := code c0 in
    if (b0 <? RuneSelf)%N then (b0, 1)
    else if between 0xC2 0xDF c0 then
      match t0 with
      | String c1 _ =>
        if isCont c1
        then (N.lor (N.shiftl (N.land b0 0x1F) 6) (N.land (code c1) 0x3F), 2)
        else (RuneError, 1)
      | _ => (RuneError, 1)
      end
    else if between 0xE0 0xEF c0 then
      let lo := if (b0 =? 0xE0)%N then 0xA0%N else 0x80%N in
      let hi := if (b0 =? 0xED)%N then 0x9F%N else 0xBF%N in
      match t0 with
      | String c1 (String c2 _) =>
        if between lo hi c1 && isCont c2
        then (N.lor (N.shiftl (N.land b0 0x0F) 12)
                (N.lor (N.shiftl (N.land (code c1) 0x3F) 6)
                       (N.land (code c2) 0x3F)), 3)
        else (RuneError, 1)
      | _ => (RuneError, 1)
      end
    else if between 0xF0 0xF4 c0 then
      let lo := if (b0 =? 0xF0)%N then 0x90%N else 0x80%N in
      let hi := if (b0 =? 0xF4)%N then 0x8F%N else 0xBF%N in
      match t0 with
      | String c1 (String c2 (String c3 _)) =>
        if between lo hi c1 && isCont c2 && isCont c3
        then (N.lor (N.shiftl (N.land b0 0x07) 18)
                (N.lor (N.shiftl (N.land (code c1) 0x3F) 12)
                   (N.lor (N.shiftl (N.land (code c2) 0x3F) 6)
                          (N.land (code c3) 0x3F))), 4)
        else (RuneError, 1)
      | _ => (RuneError, 1)
      end
    else (RuneError, 1)
  end.

(** [AppendRune] onto the empty buffer: the UTF-8 encoding of [r], that of
    U+FFFD when [r] is a surrogate or out of range. *)
Definition EncodeRune (r : N) : string :=
  let r := if ValidRune r then r else RuneError in
  if (r <? 0x80)%N then String (byte r) EmptyString
  else if (r <? 0x800)%N then
    String (byte (N.lor 0xC0 (N.shiftr r 6)))
      (String (byte (N.lor 0x80 (N.land r 0x3F))) EmptyString)
  else if (r <? 0x10000)%N then
    String (byte (N.lor 0xE0 (N.shiftr r 12)))
      (String (byte (N.lor 0x80 (N.land (N.shiftr r 6) 0x3F)))
         (String (byte (N.lor 0x80 (N.land r 0x3F))) EmptyString))
  else
    String (byte (N.lor 0xF0 (N.shiftr r 18)))
      (String (byte (N.lor 0x80 (N.land (N.shiftr r 12) 0x3F)))
         (String (byte (N.lor 0x80 (N.land (N.shiftr r 6) 0x3F)))
            (String (byte (N.lor 0x80 (N.land r 0x3F))) EmptyString))).

End utf8.

(** ** strconv *)

Module strconv.

(** [Itoa] on a length (never negative). *)
Definition Itoa (n : nat) : string := NilZero.string_of_uint (Nat.to_uint n).

Definition lowerhex (d : N) : ascii :=
  if (d <? 10)%N then byte (48 + d) else byte (87 + d).

(** The digits of [r] from bit [4 * n - 4] down to bit 0, as the loops
    [for s := 12; s >= 0; s -= 4] and [for s := 28; ...] write them. *)
Fixpoint hexdigits (n : nat) (r : N) : string :=
  match n with
  | O => EmptyString
  | S k => String (lowerhex (N.land (N.shiftr r (4 * N.of_nat k)) 0xF))
             (hexdigits k r)
  end.

Section Quote.

(** [IsPrint] decides runes up to U+00FF by two range tests and the rest
    by look-up in Unicode tables; the tables are not reproduced here and
    are taken as a parameter. *)
Variable isPrintTable : N -> bool.

Definition IsPrint (r : N) : bool :=
  if (r <=? 0xFF)%N then
    if ((0x20 <=? r) && (r <=? 0x7E))%N then true
    else if ((0xA1 <=? r) && (r <=? 0xFF))%N then negb (r =? 0xAD)%N
    else false
  else isPrintTable r.

(** [appendEscapedRune] with the double quote as [quote] and with
    [ASCIIonly] and [graphicOnly] both false. *)
Definition appendEscapedRune (r : N) : string :=
  if ((r =? code dquote) || (r =? code backslash))%N
  then String backslash (String (byte r) EmptyString)
  else if IsPrint r then utf8.EncodeRune r
  else if (r =? 7)%N then String backslash "a"
  else if (r =? 8)%N then String backslash "b"
  else if (r =? 12)%N then String backslash "f"
  else if (r =? 10)%N then String backslash "n"
  else if (r =? 13)%N then String backslash "r"
  else if (r =? 9)%N then String backslash "t"
  else if (r =? 11)%N then String backslash "v"
  else if ((r <? 0x20) || (r =? 0x7F))%N then
    String backslash (String "x"%char (hexdigits 2 r))
  else if negb (utf8.ValidRune r) then
    String backslash (String "u"%char (hexdigits 4 utf8.RuneError))
  else if (r <? 0x10000)%N then
    String backslash (String "u"%char (hexdigits 4 r))
  else String backslash (String "U"%char (hexdigits 8 r)).

(** The loop [for width := 0; len(s) > 0; s = s[width:]] of
    [appendQuotedWith]: [pending] counts the bytes of the current rune
    that are still to be stepped over. *)
Fixpoint quoteLoop (pending : nat) (s : string) : string :=
  match s with
  | EmptyString => String dquote EmptyString
  | String c t =>
    match pending with
    | S k => quoteLoop k t
    | O =>
      let (r, width) :=
        if (code c <? utf8.RuneSelf)%N then (code c, 1)
        else utf8.DecodeRuneInString s in
      if Nat.eqb width 1 && (r =? utf8.RuneError)%N then
        String backslash (String "x"%char (hexdigits 2 (code c))) ++ quoteLoop 0 t
      else appendEscapedRune r ++ quoteLoop (width - 1) t
    end
  end.

(** [strconv.Quote], which is what the verb [%q] prints for a string. *)
Definition Quote (s : string) : string := String dquote (quoteLoop 0 s).

End Quote.

End strconv.

(** ** encoding/json

    [Unmarshal] first checks that its whole input is one JSON text
    ([checkValid], a [SyntaxError] otherwise) and then stores the parsed
    value into the Go value it is given.  The first half is [parse], the
    second half the [decode...] functions, which follow the kind of the
    destination. *)

Module json.

(** A parsed JSON text.  A member of an object keeps, besides its decoded
    key and its value, the bytes of the value as they stand in the input:
    that is what a [RawMessage] field receives. *)
#[warning="-register-all"]
Inductive Value : Type :=
| JNull
| JBool (b : bool)
| JNumber (literal : string)
| JString (s : string)
| JArray (elems : list Value)
| JObject (members : list (string * string * Value)).

Inductive scan (A : Type) : Type :=
| Scanned (a : A) (rest : string)
| Invalid
| Exhausted.
Arguments Scanned {A} a rest.
Arguments Invalid {A}.
Arguments Exhausted {A}.

(** *** The scanner's lexical classes *)

Definition isSpace (c : ascii) : bool :=
  let b := code c in ((b =? 32) || (b =? 9) || (b =? 13) || (b =? 10))%N.

Fixpoint skipSpace (s : string) : string :=
  match s with
  | String c t => if isSpace c then skipSpace t else s
  | EmptyString => s
  end.

Definition isDigit (c : ascii) : bool := between 48 57 c.

Definition isHex (c : ascii) : bool :=
  between 48 57 c || between 97 102 c || between 65 70 c.

Definition hexval (c : ascii) : N :=
  if between 48 57 c then code c - 48
  else if between 97 102 c then code c - 97 + 10
  else code c - 65 + 10.

(** [stateInString] and its escape states, entered after the opening
    quote: the bytes up to the closing quote, and the text after it. *)
Fixpoint scanString (s : string) : option (string * string) :=
  let keep c r :=
    match r with
    | Some (body, rest) => Some (String c body, rest)
    | None => None
    end in
  match s with
  | EmptyString => None
  | String c t =>
    if Ascii.eqb c dquote then Some (EmptyString, t)
    else if Ascii.eqb c backslash then
      match t with
      | String e t1 =>
        if Ascii.eqb e "b" || Ascii.eqb e "f" || Ascii.eqb e "n"
           || Ascii.eqb e "r" || Ascii.eqb e "t" || Ascii.eqb e backslash
           || Ascii.eqb e "/" || Ascii.eqb e dquote
        then keep c (keep e (scanString t1))
        else if Ascii.eqb e "u" then
          match t1 with
          | String h1 (String h2 (String h3 (String h4 t5))) =>
            if isHex h1 && isHex h2 && isHex h3 && isHex h4
            then keep c (keep e (keep h1 (keep h2 (keep h3 (keep h4
                   (scanString t5))))))
            else None
          | _ => None
          end
        else None
      | EmptyString => None
      end
    else if (code c <? 32)%N then None
    else keep c (scanString t)
  end.

Fixpoint digits (s : string) : string * string :=
  match s with
  | String c t =>
    if isDigit c then let (ds, r) := digits t in (String c ds, r)
    else (EmptyString, s)
  | EmptyString => (EmptyString, s)
  end.

(** The text after the byte [c] when [s] begins with it. *)
Definition headIs (c : ascii) (s : string) : option string :=
  match s with
  | String c' r => if Ascii.eqb c' c then Some r else None
  | EmptyString => None
  end.

(** One digit or more, and the text after them. *)
Definition someDigits (s : string) : option string :=
  match digits s with
  | (EmptyString, _) => None
  | (_, r) => Some r
  end.

(** The number states ([stateNeg], [state0], [state1], [stateDot], [stateE]
    and the ones between): the text left after the longest number literal
    at the head of [s]. *)
Definition scanNumber (s : string) : option string :=
  let s1 := match headIs "-" s with
            | Some t => t
            | None => s
            end in
  let afterInt :=
    match s1 with
    | String c t =>
      if Ascii.eqb c "0" then Some t
      else if between 49 57 c then Some (snd (digits t))
      else None
    | EmptyString => None
    end in
  match afterInt with
  | None => None
  | Some s2 =>
    let afterFrac :=
      match headIs "." s2 with
      | Some t2 => someDigits t2
      | None => Some s2
      end in
    match afterFrac with
    | None => None
    | Some s3 =>
      match headIs "e" s3, headIs "E" s3 with
      | None, None => Some s3
      | Some t3, _ | None, Some t3 =>
        match headIs "+" t3, headIs "-" t3 with
        | Some t4, _ | None, Some t4 => someDigits t4
        | None, None => someDigits t3
        end
      end
    end
  end.

Definition startsWith (p s : string) : option string :=
  if String.prefix p s then Some (skip (String.length p) s) else None.

(** *** Unquoting a string literal *)

(** [getu4]: the code unit of a [\uXXXX] escape at the head of [s]. *)
Definition getu4 (s : string) : option N :=
  match s with
  | String b (String "u" (String h1 (String h2 (String h3 (String h4 _))))) =>
    if Ascii.eqb b backslash && isHex h1 && isHex h2 && isHex h3 && isHex h4
    then Some (hexval h1 * 4096 + hexval h2 * 256 + hexval h3 * 16 + hexval h4)%N
    else None
  | _ => None
  end.

Definition IsSurrogate (r : N) : bool := ((0xD800 <=? r) && (r <? 0xE000))%N.

(** [utf16.DecodeRune] *)
Definition utf16_DecodeRune (r1 r2 : N) : N :=
  if ((0xD800 <=? r1) && (r1 <? 0xDC00) && (0xDC00 <=? r2) && (r2 <? 0xE000))%N
  then (N.lor (N.shiftl (r1 - 0xD800) 10) (r2 - 0xDC00) + 0x10000)%N
  else utf8.RuneError.

(** The main loop of [unquoteBytes] over the bytes between the quotes;
    [pending] counts the bytes of the current escape or rune still to be
    stepped over.  Escapes are replaced, and bytes that are not UTF-8 are
    replaced by U+FFFD. *)
Fixpoint unquoteLoop (pending : nat) (s : string) : option string :=
  let emit out r :=
    match r with
    | Some body => Some (out ++ body)
    | None => None
    end in
  match s with
  | EmptyString => Some EmptyString
  | String c t =>
    match pending with
    | S k => unquoteLoop k t
    | O =>
      if Ascii.eqb c backslash then
        match t with
        | EmptyString => None
        | String e _ =>
          let one b := emit (String b EmptyString) (unquoteLoop 1 t) in
          if Ascii.eqb e dquote || Ascii.eqb e backslash || Ascii.eqb e "/"
             || Ascii.eqb e "'"
          then one e
          else if Ascii.eqb e "b" then one (byte 8)
          else if Ascii.eqb e "f" then one (byte 12)
          else if Ascii.eqb e "n" then one (byte 10)
          else if Ascii.eqb e "r" then one (byte 13)
          else if Ascii.eqb e "t" then one (byte 9)
          else if Ascii.eqb e "u" then
            match getu4 s with
            | None => None
            | Some rr =>
              if IsSurrogate rr then
                match getu4 (skip 6 s) with
                | Some rr1 =>
                  let dec := utf16_DecodeRune rr rr1 in
                  if negb (dec =? utf8.RuneError)%N
                  then emit (utf8.EncodeRune dec) (unquoteLoop 11 t)
                  else emit (utf8.EncodeRune utf8.RuneError) (unquoteLoop 5 t)
                | None => emit (utf8.EncodeRune utf8.RuneError) (unquoteLoop 5 t)
                end
              else emit (utf8.EncodeRune rr) (unquoteLoop 5 t)
            end
          else None
        end
      else if Ascii.eqb c dquote || (code c <? 32)%N then None
      else if (code c <? utf8.RuneSelf)%N then
        emit (String c EmptyString) (unquoteLoop 0 t)
      else
        let (rr, size) := utf8.DecodeRuneInString s in
        emit (utf8.EncodeRune rr) (unquoteLoop (size - 1) t)
    end
  end.

Definition unquote (body : string) : option string := unquoteLoop 0 body.

(** *** Values *)

Definition maxNestingDepth : N := 10000.

(** One value at the head of [s] (no leading white space), with [depth]
    arrays and objects open around it.  Every call uses one unit of
    [fuel]; [parse] below gives enough of it. *)
Fixpoint parseValue (fuel : nat) (depth : N) (s : string) {struct fuel}
  : scan Value :=
  match fuel with
  | O => Exhausted
  | S fuel' =>
    match s with
    | EmptyString => Invalid
    | String c t =>
      if Ascii.eqb c "{" then
        if (maxNestingDepth <? depth + 1)%N then Invalid
        else
          match headIs "}" (skipSpace t) with
          | Some r => Scanned (JObject []) r
          | None =>
            match parseMembers fuel' (depth + 1) (skipSpace t) with
            | Scanned ms r => Scanned (JObject ms) r
            | Invalid => Invalid
            | Exhausted => Exhausted
            end
          end
      else if Ascii.eqb c "[" then
        if (maxNestingDepth <? depth + 1)%N then Invalid
        else
          match headIs "]" (skipSpace t) with
          | Some r => Scanned (JArray []) r
          | None =>
            match parseElements fuel' (depth + 1) (skipSpace t) with
            | Scanned vs r => Scanned (JArray vs) r
            | Invalid => Invalid
            | Exhausted => Exhausted
            end
          end
      else if Ascii.eqb c dquote then
        match scanString t with
        | Some (body, r) =>
          match unquote body with
          | Some str => Scanned (JString str) r
          | None => Invalid
          end
        | None => Invalid
        end
      else if Ascii.eqb c "-" || isDigit c then
        match scanNumber s with
        | Some r =>
          Scanned (JNumber (prefix_of (String.length s - String.length r) s)) r
        | None => Invalid
        end
      else
        match startsWith "true" s, startsWith "false" s, startsWith "null" s with
        | Some r, _, _ => Scanned (JBool true) r
        | _, Some r, _ => Scanned (JBool false) r
        | _, _, Some r => Scanned JNull r
        | _, _, _ => Invalid
        end
    end
  end

(** The members of an object from a key on ([s] has no leading white
    space), up to and including the closing brace. *)
with parseMembers (fuel : nat) (depth : N) (s : string) {struct fuel}
  : scan (list (string * string * Value)) :=
  match fuel with
  | O => Exhausted
  | S fuel' =>
    match headIs dquote s with
    | None => Invalid
    | Some t =>
      match scanString t with
      | None => Invalid
      | Some (body, r1) =>
        match unquote body, headIs ":" (skipSpace r1) with
        | Some key, Some r2 =>
          let r3 := skipSpace r2 in
          match parseValue fuel' depth r3 with
          | Scanned v r4 =>
            let raw := prefix_of (String.length r3 - String.length r4) r3 in
            match headIs "," (skipSpace r4), headIs "}" (skipSpace r4) with
            | Some r5, _ =>
              match parseMembers fuel' depth (skipSpace r5) with
              | Scanned ms r6 => Scanned ((key, raw, v) :: ms) r6
              | Invalid => Invalid
              | Exhausted => Exhausted
              end
            | None, Some r5 => Scanned [(key, raw, v)] r5
            | None, None => Invalid
            end
          | Invalid => Invalid
          | Exhausted => Exhausted
          end
        | _, _ => Invalid
        end
      end
    end
  end

(** The elements of an array from a value on, up to and including the
    closing bracket. *)
with parseElements (fuel : nat) (depth : N) (s : string) {struct fuel}
  : scan (list Value) :=
  match fuel with
  | O => Exhausted
  | S fuel' =>
    match parseValue fuel' depth s with
    | Scanned v r =>
      match headIs "," (skipSpace r), headIs "]" (skipSpace r) with
      | Some r1, _ =>
        match parseElements fuel' depth (skipSpace r1) with
        | Scanned vs r2 => Scanned (v :: vs) r2
        | Invalid => Invalid
        | Exhausted => Exhausted
        end
      | None, Some r1 => Scanned [v] r1
      | None, None => Invalid
      end
    | Invalid => Invalid
    | Exhausted => Exhausted
    end
  end.

(** [checkValid] and the parse of the whole input: white space, one value,
    white space, end of input. *)
Definition parse (data : string) : option Value :=
  match parseValue (2 * String.length data + 2) 0 (skipSpace data) with
  | Scanned v r =>
    match skipSpace r with
    | EmptyString => Some v
    | _ => None
    end
  | _ => None
  end.

(** *** Storing a value into a Go value

    A mismatch between the JSON value and the kind of the destination is
    an [UnmarshalTypeError].  The decoder records the first one, goes on,
    and returns it at the end; the program never reads a destination when
    [Unmarshal] has returned an error, so the functions below stop at the
    first mismatch.  JSON null leaves a string, a bool or a struct as it
    is and makes a slice nil. *)

Inductive Error : Type := SyntaxError | UnmarshalTypeError.

Definition decodeString (v : Value) (cur : string) : result Error string :=
  match v with
  | JString s => Ok s
  | JNull => Ok cur
  | _ => Err UnmarshalTypeError
  end.

Definition decodeBool (v : Value) (cur : bool) : result Error bool :=
  match v with
  | JBool b => Ok b
  | JNull => Ok cur
  | _ => Err UnmarshalTypeError
  end.

Definition upper (c : ascii) : ascii :=
  if between 97 122 c then byte (code c - 32) else c.

(** [foldName], as far as it matters for names written in ASCII: ASCII
    letters go to upper case, and the two runes outside ASCII whose case
    orbit reaches ASCII, U+017F (bytes C5 BF) and U+212A (bytes E2 84 AA),
    go to S and K.  Any other rune outside ASCII folds to a rune outside
    ASCII and is left as it is here. *)
Fixpoint foldName (s : string) : string :=
  match s with
  | EmptyString => EmptyString
  | String c t =>
    if (code c <? utf8.RuneSelf)%N then String (upper c) (foldName t)
    else if (code c =? 0xC5)%N then
      match t with
      | String c1 t1 =>
        if (code c1 =? 0xBF)%N then String "S" (foldName t1)
        else String c (foldName t)
      | EmptyString => String c (foldName t)
      end
    else if (code c =? 0xE2)%N then
      match t with
      | String c1 (String c2 t2) =>
        if ((code c1 =? 0x84) && (code c2 =? 0xAA))%N
        then String "K" (foldName t2)
        else String c (foldName t)
      | _ => String c (foldName t)
      end
    else String c (foldName t)
  end.

Fixpoint indexOf (p : string -> bool) (names : list string) : option nat :=
  match names with
  | [] => None
  | n :: rest =>
    if p n then Some 0
    else match indexOf p rest with
         | Some i => Some (S i)
         | None => None
         end
  end.

(** The field a key selects: the one with exactly that name, else the one
    with that name up to case.  [names] are the [json] tags of the struct,
    in declaration order; the result is a position in it. *)
Definition lookupField (names : list string) (key : string) : option nat :=
  match indexOf (String.eqb key) names with
  | Some i => Some i
  | None => indexOf (fun n => String.eqb (foldName n) (foldName key)) names
  end.

Section Decode.
Context {T : Type}.

(** The members of an object one after the other, each stored into the
    field it selects ([store] gets the field's position, the raw bytes of
    the member's value and the value); members that select no field are
    skipped. *)
Fixpoint decodeMembers (names : list string)
    (store : nat -> string -> Value -> T -> result Error T)
    (ms : list (string * string * Value)) (cur : T) : result Error T :=
  match ms with
  | [] => Ok cur
  | (key, raw, v) :: rest =>
    match lookupField names key with
    | Some i => cur' <- store i raw v cur ;; decodeMembers names store rest cur'
    | None => decodeMembers names store rest cur
    end
  end.

Definition isArray (v : Value) : bool :=
  match v with
  | JArray _ => true
  | _ => false
  end.

Definition isNull (v : Value) : bool :=
  match v with
  | JNull => true
  | _ => false
  end.

(** No member of [ms] selects a field of [names]. *)
Definition noMember (names : list string)
    (ms : list (string * string * Value)) : bool :=
  forallb (fun m => match lookupField names (fst (fst m)) with
                    | Some _ => false
                    | None => true
                    end) ms.

Definition decodeStruct (names : list string)
    (store : nat -> string -> Value -> T -> result Error T)
    (v : Value) (cur : T) : result Error T :=
  match v with
  | JObject ms => decodeMembers names store ms cur
  | JNull => Ok cur
  | _ => Err UnmarshalTypeError
  end.

Fixpoint decodeElems (elem : Value -> result Error T) (es : list Value)
  : result Error (list T) :=
  match es with
  | [] => Ok []
  | e :: rest =>
    x <- elem e ;; xs <- decodeElems elem rest ;; Ok (x :: xs)
  end.

(** A slice gets one element per element of the array.  (When the slice
    already has elements, because the key occurs twice, Go decodes onto
    them instead of onto zero values; the length is the same, and the
    length is all the program reads.) *)
Definition decodeSlice (elem : Value -> result Error T) (v : Value)
  : result Error (list T) :=
  match v with
  | JArray es => decodeElems elem es
  | JNull => Ok []
  | _ => Err UnmarshalTypeError
  end.

(** [Unmarshal(data, &p)] for a [p] that holds [zero]. *)
Definition Unmarshal (decode : Value -> T -> result Error T)
    (data : string) (zero : T) : result Error T :=
  match parse data with
  | None => Err SyntaxError
  | Some v => decode v zero
  end.

End Decode.

End json.

(** ** fmt *)

Definition newline : string := String (byte 10) EmptyString.

(** [fmt.Println]: the operands separated by spaces, then a newline. *)
Definition Println (operands : list string) : string :=
  String.concat " " operands ++ newline.

(** ** The program: types *)

Record Repo : Type := { Name : string }.

(** The Go fields are [Type], [Repo] and [Payload]; [Payload] is a
    [json.RawMessage], the bytes of the payload as received. *)
Record Event : Type := {
  Type_ : string;
  Repo_ : Repo;
  Payload : string
}.

Record Commit : Type := { SHA : string }.

Record PushPayload : Type := { Commits : list Commit }.

Record ActionPayload : Type := { Action : string }.

Record CreatePayload : Type := {
  RefType : string;
  Ref : string
}.

Record PullRequest_t : Type := { Merged : bool }.

(** The Go fields are [Action] and [PullRequest]. *)
Record PullRequestPayload : Type := {
  PRAction : string;
  PullRequest : PullRequest_t
}.

(** Go errors, as far as the program makes or passes them on. *)
Inductive error : Type :=
| errorString (msg : string)
| wrapError (prefix : string) (cause : error)
| jsonError (e : json.Error)
| externalError (descr : string).

Record Request : Type := {
  Method : string;
  URL : string;
  Header : list (string * string)
}.

(** A response whose body has been read to the end by [io.ReadAll]. *)
Record Response : Type := {
  StatusCode : Z;
  Status : string;
  Body : result error string
}.

(** What lies outside the program: whether [http.NewRequest] accepts the
    URL, and what [client.Do] returns for a request under a timeout (in
    seconds). *)
Record World : Type := {
  rejectURL : string -> option error;
  Do : Z -> Request -> result error Response
}.

Inductive stderrLine : Type :=
| Text (s : string)
| ErrorText (label : string) (err : error).

(** One run of the program: the bytes written to standard output, what is
    written to standard error, one entry for each call of [Fprintln], and
    the exit status. *)
Record Run : Type := {
  stdout : string;
  stderr : list stderrLine;
  exitCode : Z
}.

(** ** The program: decoding by struct tags *)

Definition decodeRepo (v : json.Value) (cur : Repo) : result json.Error Repo :=
  json.decodeStruct ["name"]
    (fun _ _ v r => s <- json.decodeString v (Name r) ;; Ok {| Name := s |})
    v cur.

Definition decodeEvent (v : json.Value) (cur : Event)
  : result json.Error Event :=
  json.decodeStruct ["type"; "repo"; "payload"]
    (fun i raw v e =>
       match i with
       | 0 => s <- json.decodeString v (Type_ e) ;;
              Ok {| Type_ := s; Repo_ := Repo_ e; Payload := Payload e |}
       | 1 => r <- decodeRepo v (Repo_ e) ;;
              Ok {| Type_ := Type_ e; Repo_ := r; Payload := Payload e |}
       | _ => Ok {| Type_ := Type_ e; Repo_ := Repo_ e; Payload := raw |}
       end)
    v cur.

Definition zeroEvent : Event :=
  {| Type_ := EmptyString; Repo_ := {| Name := EmptyString |};
     Payload := EmptyString |}.

Definition decodeEvents (v : json.Value) (cur : list Event)
  : result json.Error (list Event) :=
  json.decodeSlice (fun e => decodeEvent e zeroEvent) v.

Definition decodeCommit (v : json.Value) (cur : Commit)
  : result json.Error Commit :=
  json.decodeStruct ["sha"]
    (fun _ _ v c => s <- json.decodeString v (SHA c) ;; Ok {| SHA := s |})
    v cur.

Definition decodePushPayload (v : json.Value) (cur : PushPayload)
  : result json.Error PushPayload :=
  json.decodeStruct ["commits"]
    (fun _ _ v _ =>
       cs <- json.decodeSlice (fun e => decodeCommit e {| SHA := EmptyString |}) v ;;
       Ok {| Commits := cs |})
    v cur.

Definition decodeActionPayload (v : json.Value) (cur : ActionPayload)
  : result json.Error ActionPayload :=
  json.decodeStruct ["action"]
    (fun _ _ v p => s <- json.decodeString v (Action p) ;; Ok {| Action := s |})
    v cur.

Definition decodeCreatePayload (v : json.Value) (cur : CreatePayload)
  : result json.Error CreatePayload :=
  json.decodeStruct ["ref_type"; "ref"]
    (fun i _ v p =>
       match i with
       | 0 => s <- json.decodeString v (RefType p) ;;
              Ok {| RefType := s; Ref := Ref p |}
       | _ => s <- json.decodeString v (Ref p) ;;
              Ok {| RefType := RefType p; Ref := s |}
       end)
    v cur.

Definition decodePullRequest (v : json.Value) (cur : PullRequest_t)
  : result json.Error PullRequest_t :=
  json.decodeStruct ["merged"]
    (fun _ _ v q => b <- json.decodeBool v (Merged q) ;; Ok {| Merged := b |})
    v cur.

Definition decodePullRequestPayload (v : json.Value) (cur : PullRequestPayload)
  : result json.Error PullRequestPayload :=
  json.decodeStruct ["action"; "pull_request"]
    (fun i _ v p =>
       match i with
       | 0 => s <- json.decodeString v (PRAction p) ;;
              Ok {| PRAction := s; PullRequest := PullRequest p |}
       | _ => q <- decodePullRequest v (PullRequest p) ;;
              Ok {| PRAction := PRAction p; PullRequest := q |}
       end)
    v cur.

(** [json.Unmarshal(data, &p)] after [var p PushPayload], and so on. *)
Definition UnmarshalPushPayload (data : string) :=
  json.Unmarshal decodePushPayload data {| Commits := [] |}.

Definition UnmarshalActionPayload (data : string) :=
  json.Unmarshal decodeActionPayload data {| Action := EmptyString |}.

Definition UnmarshalCreatePayload (data : string) :=
  json.Unmarshal decodeCreatePayload data
    {| RefType := EmptyString; Ref := EmptyString |}.

Definition UnmarshalPullRequestPayload (data : string) :=
  json.Unmarshal decodePullRequestPayload data
    {| PRAction := EmptyString; PullRequest := {| Merged := false |} |}.

Definition UnmarshalEvents (data : string) :=
  json.Unmarshal decodeEvents data [].

(** ** The program: functions *)

(** [verbCap] capitalizes the first letter of a string. *)
Definition verbCap (action : string) : string :=
  match action with
  | EmptyString => EmptyString
  | String b0 rest =>
    if ((code "a" <=? code b0) && (code b0 <=? code "z"))%N
    then String (byte (code b0 - (code "a" - code "A"))) rest
    else action
  end.

(** [extractAction] decodes the payload as [ActionPayload] and returns its
    action, the empty string when decoding fails. *)
Definition extractAction (payload : string) : string :=
  match UnmarshalActionPayload payload with
  | Err _ => EmptyString
  | Ok p => Action p
  end.

Section Program.

(** The tables behind [strconv.IsPrint], for runes above U+00FF. *)
Variable isPrintTable : N -> bool.

(** [formatEvent] converts an event into a human readable line. *)
Definition formatEvent (e : Event) : string :=
  let repo := Name (Repo_ e) in
  if Type_ e =? "PushEvent" then
    match UnmarshalPushPayload (Payload e) with
    | Err _ => "Pushed commits to " ++ repo
    | Ok p =>
      let n := List.length (Commits p) in
      if Nat.eqb n 1 then "Pushed 1 commit to " ++ repo
      else "Pushed " ++ strconv.Itoa n ++ " commits to " ++ repo
    end
  else if Type_ e =? "IssuesEvent" then
    let action := extractAction (Payload e) in
    let action := if action =? EmptyString then "updated" else action in
    verbCap action ++ " an issue in " ++ repo
  else if Type_ e =? "IssueCommentEvent" then
    "Commented on an issue in " ++ repo
  else if Type_ e =? "PullRequestEvent" then
    match UnmarshalPullRequestPayload (Payload e) with
    | Ok p =>
      if (PRAction p =? "closed") && Merged (PullRequest p)
      then "Merged a pull request in " ++ repo
      else if negb (PRAction p =? EmptyString)
      then verbCap (PRAction p) ++ " a pull request in " ++ repo
      else "Updated a pull request in " ++ repo
    | Err _ => "Updated a pull request in " ++ repo
    end
  else if Type_ e =? "WatchEvent" then "Starred " ++ repo
  else if Type_ e =? "ForkEvent" then "Forked " ++ repo
  else if Type_ e =? "CreateEvent" then
    match UnmarshalCreatePayload (Payload e) with
    | Ok p =>
      if RefType p =? "repository" then "Created repository " ++ repo
      else if negb (Ref p =? EmptyString)
      then "Created " ++ RefType p ++ " " ++ strconv.Quote isPrintTable (Ref p)
           ++ " in " ++ repo
      else "Created " ++ RefType p ++ " in " ++ repo
    | Err _ => "Created something in " ++ repo
    end
  else if negb (repo =? EmptyString) then Type_ e ++ " in " ++ repo
  else Type_ e.

Definition eventsURL (username : string) : string :=
  "https://api.github.com/users/" ++ username ++ "/events".

(** The request as [fetchEvents] has it when it is sent. *)
Definition eventsRequest (url : string) : Request :=
  {| Method := "GET"; URL := url;
     Header := [("User-Agent", "github-activity-cli");
                ("Accept", "application/vnd.github+json")] |}.

(** [fetchEvents]: one GET request, the status code interpreted, the body
    decoded. *)
Definition fetchEvents (w : World) (username : string)
  : result error (list Event) :=
  let url := eventsURL username in
  match rejectURL w url with
  | Some err => Err err
  | None =>
    let req := eventsRequest url in
    match Do w 10 req with
    | Err err => Err (wrapError "request failed " err)
    | Ok res =>
      match Body res with
      | Err err => Err (wrapError "failed to read response " err)
      | Ok body =>
        if (StatusCode res =? 200)%Z then
          match UnmarshalEvents body with
          | Err err => Err (wrapError "invalid json " (jsonError err))
          | Ok events => Ok events
          end
        else if (StatusCode res =? 404)%Z then
          Err (errorString ("user " ++ username ++ " not found"))
        else if (StatusCode res =? 403)%Z then
          Err (errorString ("forbidden 403, response " ++ body))
        else
          Err (errorString
                 ("github api error " ++ Status res ++ " resp: " ++ body))
      end
    end
  end.

Definition usage : stderrLine :=
  Text "Use it this whay : github-activity <username>".

(** The loop of [main] over the events, threading what has been written
    to standard output so far. *)
Definition printEvent (out : string) (e : Event) : string :=
  let line := formatEvent e in
  if negb (line =? EmptyString) then out ++ Println ["-"; line] else out.

(** [main], with [os.Args] as [args]. *)
Definition main (w : World) (args : list string) : Run :=
  if negb (Nat.eqb (List.length args) 2) then
    {| stdout := EmptyString; stderr := [usage]; exitCode := 1 |}
  else
    let username := nth 1 args EmptyString in
    match fetchEvents w username with
    | Err err =>
      {| stdout := EmptyString; stderr := [ErrorText "error" err];
         exitCode := 1 |}
    | Ok events =>
      if Nat.eqb (List.length events) 0 then
        {| stdout := Println ["no recent activity"]; stderr := [];
           exitCode := 0 |}
      else
        {| stdout := fold_left printEvent events EmptyString; stderr := [];
           exitCode := 0 |}
    end.

End Program.

(** The event types with a case of their own in the switch. *)
Definition knownTypes : list string :=
  ["PushEvent"; "IssuesEvent"; "IssueCommentEvent"; "PullRequestEvent";
   "WatchEvent"; "ForkEvent"; "CreateEvent"].

(** JSON texts in the examples below are written with an apostrophe where
    the text has a double quote. *)
Fixpoint js (s : string) : string :=
  match s with
  | EmptyString => EmptyString
  | String c t => String (if Ascii.eqb c "'" then dquote else c) (js t)
  end.

(** *** What the specification's words mean *)

(** A byte that is printable ASCII and neither the double quote nor the
    backslash. *)
Definition plainByte (c : ascii) : bool :=
  between 0x20 0x7E c && negb (Ascii.eqb c dquote)
  && negb (Ascii.eqb c backslash).

Fixpoint plainText (s : string) : bool :=
  match s with
  | EmptyString => true
  | String c t => plainByte c && plainText t
  end.

(** A text put between double quotes as it is. *)
Definition inDoubleQuotes (s : string) : string :=
  String dquote (s ++ String dquote EmptyString).

(** One line, a hyphen, a space and the text, for every text that is not
    empty, in the order of the list. *)
Definition bulletLines (lines : list string) : string :=
  fold_right (fun line out => "- " ++ line ++ newline ++ out) EmptyString
    (filter (fun line => negb (line =? EmptyString)) lines).

(** A table that lists no rune, for the examples: their texts are ASCII,
    for which [IsPrint] does not look at the tables. *)
Definition emptyTable : N -> bool := fun _ => false.

(** A world for the examples: every URL is accepted and every request is
    answered with the same status and body. *)
Definition answering (status : Z) (statusLine body : string) : World :=
  {| rejectURL := fun _ => None;
     Do := fun _ _ =>
       Ok {| StatusCode := status; Status := statusLine; Body := Ok body |} |}.

Definition event (type repo payload : string) : Event :=
  {| Type_ := type; Repo_ := {| Name := repo |}; Payload := payload |}.

(** Worlds where the exchange fails: the URL is refused, the request gets
    no response, or the body of the response cannot be read. *)
Definition refusing (err : error) : World :=
  {| rejectURL := fun _ => Some err; Do := fun _ _ => Err err |}.

Definition unreachable (err : error) : World :=
  {| rejectURL := fun _ => None; Do := fun _ _ => Err err |}.

Definition truncating (status : Z) (statusLine : string) (err : error)
  : World :=
  {| rejectURL := fun _ => None;
     Do := fun _ _ =>
       Ok {| StatusCode := status; Status := statusLine; Body := Err err |} |}.

(** A world that answers one URL under one timeout, and nothing else. *)
Definition answeringOnly (timeout : Z) (url : string) (res : Response)
  : World :=
  {| rejectURL := fun _ => None;
     Do := fun t req =>
       if (t =? timeout)%Z && (URL req =? url) then Ok res
       else Err (externalError "no such exchange") |}.

(** *** JSON texts

    The texts of the properties that start from the bytes of a payload
    or of a response.  They are written without white space. *)

(** A JSON text for a value: no white space, strings written without
    escapes, number literals as they are. *)
Fixpoint render (v : json.Value) : string :=
  match v with
  | json.JNull => "null"
  | json.JBool true => "true"
  | json.JBool false => "false"
  | json.JNumber literal => literal
  | json.JString s => inDoubleQuotes s
  | json.JArray vs => "[" ++ String.concat "," (map render vs) ++ "]"
  | json.JObject ms =>
    "{" ++ String.concat ","
             (map (fun m => inDoubleQuotes (fst (fst m)) ++ ":"
                            ++ render (snd m)) ms)
        ++ "}"
  end.

(** The value with, at every member, the text [render] writes for it. *)
Fixpoint canon (v : json.Value) : json.Value :=
  match v with
  | json.JArray vs => json.JArray (map canon vs)
  | json.JObject ms =>
    json.JObject
      (map (fun m => (fst (fst m), render (snd m), canon (snd m))) ms)
  | _ => v
  end.

(** Values [render] writes faithfully at nesting depth [depth]: no number,
    every string and key plain, and no array or object nested deeper than
    the decoder allows. *)
Fixpoint plainValue (depth : N) (v : json.Value) : bool :=
  match v with
  | json.JNull | json.JBool _ => true
  | json.JNumber _ => false
  | json.JString s => plainText s
  | json.JArray vs =>
    (depth + 1 <=? json.maxNestingDepth)%N
    && forallb (plainValue (depth + 1)) vs
  | json.JObject ms =>
    (depth + 1 <=? json.maxNestingDepth)%N
    && forallb (fun m => plainText (fst (fst m))
                         && plainValue (depth + 1) (snd m)) ms
  end.

(** The first byte of a rendered plain value opens a value. *)
Definition opensValue (s : string) : Prop :=
  json.skipSpace s = s /\ json.headIs "]" s = None /\ json.headIs "}" s = None.

(** What the round trip says of one value. *)
Definition readsBack (v : json.Value) : Prop :=
  forall depth rest, plainValue depth v = true ->
  exists fuel,
    json.parseValue fuel depth (render v ++ rest) = json.Scanned (canon v) rest.

(** Induction on values, through the lists of elements and members. *)
Section ValueInduction.

Variable P : json.Value -> Prop.
Hypothesis Hnull : P json.JNull.
Hypothesis Hbool : forall b, P (json.JBool b).
Hypothesis Hnumber : forall literal, P (json.JNumber literal).
Hypothesis Hstring : forall s, P (json.JString s).
Hypothesis Harray : forall vs, Forall P vs -> P (json.JArray vs).
Hypothesis Hobject :
  forall ms, Forall (fun m => P (snd m)) ms -> P (json.JObject ms).

Fixpoint Value_induction (v : json.Value) : P v :=
  match v with
  | json.JNull => Hnull
  | json.JBool b => Hbool b
  | json.JNumber literal => Hnumber literal
  | json.JString s => Hstring s
  | json.JArray vs =>
    Harray vs
      ((fix all (l : list json.Value) : Forall P l :=
          match l with
          | [] => Forall_nil P
          | x :: r => Forall_cons x (Value_induction x) (all r)
          end) vs)
  | json.JObject ms =>
    Hobject ms
      ((fix all (l : list (string * string * json.Value))
          : Forall (fun m => P (snd m)) l :=
          match l with
          | [] => Forall_nil _
          | m :: r => Forall_cons m (Value_induction (snd m)) (all r)
          end) ms)
  end.

End ValueInduction.

(** A boolean as JSON writes it. *)
Definition boolText (b : bool) : string := if b then "true" else "false".

(** The JSON text of an event with the three members the program reads,
    its payload an object with an action. *)
Definition eventText (item : string * string * string) : string :=
  js "{'type':'" ++ fst (fst item) ++ js "','repo':{'name':'"
  ++ snd (fst item) ++ js "'},'payload':{'action':'" ++ snd item
  ++ js "'}}".

(** The event that text stands for. *)
Definition eventOf (item : string * string * string) : Event :=
  event (fst (fst item)) (snd (fst item))
    (js "{'action':'" ++ snd item ++ js "'}").

(** The three texts of an item are plain. *)
Definition plainItem (item : string * string * string) : bool :=
  plainText (fst (fst item)) && plainText (snd (fst item))
  && plainText (snd item).

(** *** Quoted texts *)

(** A text of printable ASCII. *)
Fixpoint printableText (s : string) : bool :=
  match s with
  | EmptyString => true
  | String c t => between 0x20 0x7E c && printableText t
  end.

(** The text with a backslash put before each of its double quotes and
    backslashes. *)
Fixpoint backslashed (s : string) : string :=
  match s with
  | EmptyString => EmptyString
  | String c t =>
    if Ascii.eqb c dquote || Ascii.eqb c backslash
    then String backslash (String c (backslashed t))
    else String c (backslashed t)
  end.

(** * Properties *)

(** ** Strings *)

Lemma append_cons_nonempty (s t : string) (c : ascii) :
  s ++ String c t <> EmptyString.
Proof. destruct s; discriminate. Qed.

Lemma append_empty_r (s : string) : s ++ EmptyString = s.
Proof. induction s as [|c s IH]; simpl; [reflexivity | now rewrite IH]. Qed.

Lemma append_assoc (s t u : string) : (s ++ t) ++ u = s ++ t ++ u.
Proof. induction s as [|c s IH]; simpl; [reflexivity | now rewrite IH]. Qed.

Lemma code_byte (n : N) : (n < 256)%N -> code (byte n) = n.
Proof.
  intros H. unfold code, byte.
  rewrite N.mod_small by assumption. now apply N_ascii_embedding.
Qed.

Lemma code_bound (c : ascii) : (code c < 256)%N.
Proof. apply N_ascii_bounded. Qed.

Lemma byte_code (c : ascii) : byte (code c) = c.
Proof.
  unfold byte, code. rewrite N.mod_small by apply N_ascii_bounded.
  apply ascii_N_embedding.
Qed.

(** ** verbCap *)

Lemma verbCap_lower (c : ascii) (rest : string) :
  (97 <= code c <= 122)%N ->
  verbCap (String c rest) = String (byte (code c - 32)) rest.
Proof.
  intros [Hlo Hhi]. unfold verbCap.
  change (code "a") with 97%N. change (code "z") with 122%N.
  change (code "A") with 65%N.
  apply N.leb_le in Hlo. apply N.leb_le in Hhi. rewrite Hlo, Hhi. reflexivity.
Qed.

Lemma verbCap_other (c : ascii) (rest : string) :
  ~ (97 <= code c <= 122)%N ->
  verbCap (String c rest) = String c rest.
Proof.
  intros H. unfold verbCap.
  change (code "a") with 97%N. change (code "z") with 122%N.
  destruct (97 <=? code c)%N eqn:Hlo; [|reflexivity].
  destruct (code c <=? 122)%N eqn:Hhi; [|reflexivity].
  apply N.leb_le in Hlo. apply N.leb_le in Hhi. exfalso. apply H. lia.
Qed.

(** C8.  [verbCap] replaces a first byte in a..z by the byte 32 below it,
    which is the same letter in A..Z, and keeps the rest; in every other
    case (the empty string, a first byte that is upper case, a digit, or a
    byte of a character outside ASCII) it returns its argument. *)
Theorem verbCap_spec (s : string) :
  (forall c rest, s = String c rest -> (97 <= code c <= 122)%N ->
     verbCap s = String (byte (code c - 32)) rest
     /\ code (byte (code c - 32)) = (code c - 32)%N
     /\ (65 <= code c - 32 <= 90)%N)
  /\ ((forall c rest, s = String c rest -> ~ (97 <= code c <= 122)%N) ->
      verbCap s = s).
Proof.
  split.
  - intros c rest -> Hc. split; [now apply verbCap_lower|].
    split; [apply code_byte|]; lia.
  - intros H. destruct s as [|c rest]; [reflexivity|].
    apply verbCap_other. now apply (H c rest).
Qed.

Example verbCap_empty : verbCap EmptyString = EmptyString.
Proof. reflexivity. Qed.

Example verbCap_opened : verbCap "opened" = "Opened".
Proof. reflexivity. Qed.

Example verbCap_Opened : verbCap "Opened" = "Opened".
Proof. reflexivity. Qed.

Example verbCap_digits : verbCap "123abc" = "123abc".
Proof. reflexivity. Qed.

(** A first character outside ASCII: the two bytes of U+00E9. *)
Example verbCap_non_ascii :
  let s := String (byte 0xC3) (String (byte 0xA9) "t") in verbCap s = s.
Proof. reflexivity. Qed.

(** ** The parser: its fuel is enough *)

Lemma skipSpace_length (s : string) :
  String.length (json.skipSpace s) <= String.length s.
Proof.
  induction s as [|c s IH]; simpl; [lia|].
  destruct (json.isSpace c); simpl; lia.
Qed.

Lemma headIs_length (c : ascii) (s r : string) :
  json.headIs c s = Some r -> String.length s = S (String.length r).
Proof.
  destruct s as [|c' s]; simpl; [discriminate|].
  destruct (Ascii.eqb c' c); [|discriminate]. now intros [= ->].
Qed.

Lemma digits_length (s : string) :
  String.length (snd (json.digits s)) <= String.length s.
Proof.
  induction s as [|c s IH]; simpl; [lia|].
  destruct (json.isDigit c); simpl; [|lia].
  destruct (json.digits s) as [ds r]. simpl in *. lia.
Qed.

Lemma someDigits_length (s r : string) :
  json.someDigits s = Some r -> String.length r <= String.length s.
Proof.
  unfold json.someDigits. pose proof (digits_length s) as H.
  destruct (json.digits s) as [ds r']. simpl in H.
  destruct ds; [discriminate|]. now intros [= <-].
Qed.

Lemma scanNumber_length (s r : string) :
  json.scanNumber s = Some r -> String.length r < String.length s.
Proof.
  unfold json.scanNumber.
  set (s1 := match json.headIs "-" s with Some t => t | None => s end).
  assert (H1 : String.length s1 <= String.length s).
  { subst s1. destruct (json.headIs "-" s) eqn:E; [|lia].
    apply headIs_length in E. lia. }
  destruct s1 as [|c t]; [discriminate|].
  set (afterInt := if Ascii.eqb c "0" then Some t
                   else if between 49 57 c then Some (snd (json.digits t))
                   else None).
  assert (H2 : forall s2, afterInt = Some s2 -> String.length s2 <= String.length t).
  { subst afterInt. intros s2. destruct (Ascii.eqb c "0"); [now intros [= <-]|].
    destruct (between 49 57 c); [|discriminate].
    intros [= <-]. apply digits_length. }
  destruct afterInt as [s2|]; [|discriminate].
  specialize (H2 s2 eq_refl). simpl in H1.
  set (afterFrac := match json.headIs "." s2 with
                    | Some t2 => json.someDigits t2 | None => Some s2 end).
  assert (H3 : forall s3, afterFrac = Some s3 -> String.length s3 <= String.length s2).
  { subst afterFrac. intros s3. destruct (json.headIs "." s2) eqn:E.
    - apply headIs_length in E. intros H. apply someDigits_length in H. lia.
    - now intros [= <-]. }
  destruct afterFrac as [s3|]; [|discriminate].
  specialize (H3 s3 eq_refl).
  assert (H4 : forall t3 r, 
    match json.headIs "+" t3, json.headIs "-" t3 with
        | Some t4, _ | None, Some t4 => json.someDigits t4
        | None, None => json.someDigits t3
        end = Some r -> String.length r <= String.length t3).
  { intros t3 r0. destruct (json.headIs "+" t3) eqn:E1.
    - apply headIs_length in E1. intros H. apply someDigits_length in H. lia.
    - destruct (json.headIs "-" t3) eqn:E2.
      + apply headIs_length in E2. intros H. apply someDigits_length in H. lia.
      + apply someDigits_length. }
  destruct (json.headIs "e" s3) eqn:E1.
  - apply headIs_length in E1. intros H. apply H4 in H. lia.
  - destruct (json.headIs "E" s3) eqn:E2.
    + apply headIs_length in E2. intros H. apply H4 in H. lia.
    + intros [= <-]. lia.
Qed.

Lemma skip_prefix_length (p s : string) :
  String.prefix p s = true ->
  String.length (skip (String.length p) s) + String.length p = String.length s.
Proof.
  revert s. induction p as [|c p IH]; intros s; simpl.
  - destruct s; simpl; lia.
  - destruct s as [|c' s]; simpl; intros H; [discriminate H|].
    destruct (ascii_dec c c'); [|discriminate H].
    specialize (IH s H). lia.
Qed.

Lemma startsWith_length (p s r : string) :
  json.startsWith p s = Some r ->
  String.length r + String.length p = String.length s.
Proof.
  unfold json.startsWith. destruct (String.prefix p s) eqn:E; [|discriminate].
  intros [= <-]. now apply skip_prefix_length.
Qed.

Lemma scanString_length_aux (n : nat) :
  forall s body r, String.length s <= n ->
  json.scanString s = Some (body, r) -> String.length r < String.length s.
Proof.
  induction n as [|n IH]; intros s body r Hn.
  - destruct s; [discriminate | simpl in Hn; lia].
  - destruct s as [|c t]; [discriminate|]. simpl in Hn.
    cbn [json.scanString].
    destruct (Ascii.eqb c dquote).
    { intros [= _ <-]. simpl. lia. }
    destruct (Ascii.eqb c backslash).
    + destruct t as [|e t1]; [discriminate|]. simpl in Hn.
      destruct (_ || _).
      * destruct (json.scanString t1) as [[b1 r1]|] eqn:E; [|discriminate].
        apply IH in E; [|lia]. intros [= _ <-]. simpl. lia.
      * destruct (Ascii.eqb e "u"); [|discriminate].
        destruct t1 as [|h1 [|h2 [|h3 [|h4 t5]]]]; try discriminate.
        simpl in Hn.
        destruct (_ && _); [|discriminate].
        destruct (json.scanString t5) as [[b1 r1]|] eqn:E; [|discriminate].
        apply IH in E; [|lia]. intros [= _ <-]. simpl. lia.
    + destruct (code c <? 32)%N; [discriminate|].
      destruct (json.scanString t) as [[b1 r1]|] eqn:E; [|discriminate].
      apply IH in E; [|lia]. intros [= _ <-]. simpl. lia.
Qed.

Lemma scanString_length (s body r : string) :
  json.scanString s = Some (body, r) -> String.length r < String.length s.
Proof. now apply (scanString_length_aux (String.length s)). Qed.

Ltac lengths :=
  repeat match goal with
  | H : json.headIs _ _ = Some _ |- _ => apply headIs_length in H
  | H : json.scanString _ = Some _ |- _ => apply scanString_length in H
  | H : json.scanNumber _ = Some _ |- _ => apply scanNumber_length in H
  | H : json.startsWith _ _ = Some _ |- _ => apply startsWith_length in H
  end;
  repeat match goal with
  | |- context [json.skipSpace ?s] =>
    lazymatch goal with
    | _ : String.length (json.skipSpace s) <= String.length s |- _ => fail
    | _ => pose proof (skipSpace_length s)
    end
  | _ : context [json.skipSpace ?s] |- _ =>
    lazymatch goal with
    | _ : String.length (json.skipSpace s) <= String.length s |- _ => fail
    | _ => pose proof (skipSpace_length s)
    end
  end;
  simpl String.length in *; try lia.

Lemma parse_shorter (fuel : nat) :
  (forall depth s v r, json.parseValue fuel depth s = json.Scanned v r ->
     String.length r < String.length s)
  /\ (forall depth s ms r, json.parseMembers fuel depth s = json.Scanned ms r ->
        String.length r < String.length s)
  /\ (forall depth s vs r, json.parseElements fuel depth s = json.Scanned vs r ->
        String.length r < String.length s).
Proof.
  induction fuel as [|fuel (IHv & IHm & IHe)]; [repeat split; discriminate|].
  repeat split.
  - intros depth s v r. cbn [json.parseValue].
    destruct s as [|c t]; [discriminate|].
    destruct (Ascii.eqb c "{").
    { destruct (_ <? _)%N; [discriminate|].
      destruct (json.headIs "}" _) eqn:E1.
      - intros [= _ <-]. lengths.
      - destruct (json.parseMembers _ _ _) eqn:E2; try discriminate.
        apply IHm in E2. intros [= _ <-]. lengths. }
    destruct (Ascii.eqb c "[").
    { destruct (_ <? _)%N; [discriminate|].
      destruct (json.headIs "]" _) eqn:E1.
      - intros [= _ <-]. lengths.
      - destruct (json.parseElements _ _ _) eqn:E2; try discriminate.
        apply IHe in E2. intros [= _ <-]. lengths. }
    destruct (Ascii.eqb c dquote).
    { destruct (json.scanString t) as [[body r1]|] eqn:E1; [|discriminate].
      destruct (json.unquote body); [|discriminate].
      intros [= _ <-]. lengths. }
    destruct (_ || _).
    { destruct (json.scanNumber _) eqn:E1; [|discriminate].
      intros [= _ <-]. lengths. }
    destruct (json.startsWith "true" _) eqn:E1.
    { intros [= _ <-]. lengths. }
    destruct (json.startsWith "false" _) eqn:E2.
    { intros [= _ <-]. lengths. }
    destruct (json.startsWith "null" _) eqn:E3; [|discriminate].
    intros [= _ <-]. lengths.
  - intros depth s ms r. cbn [json.parseMembers].
    destruct (json.headIs dquote s) as [t|] eqn:E0; [|discriminate].
    destruct (json.scanString t) as [[body r1]|] eqn:E1; [|discriminate].
    destruct (json.unquote body) as [key|]; [|discriminate].
    destruct (json.headIs ":" _) as [r2|] eqn:E2; [|discriminate].
    cbv zeta.
    destruct (json.parseValue _ _ _) as [v r4| |] eqn:E3; try discriminate.
    apply IHv in E3.
    destruct (json.headIs "," _) as [r5|] eqn:E4.
    + destruct (json.parseMembers _ _ _) as [ms' r6| |] eqn:E5; try discriminate.
      apply IHm in E5. intros [= _ <-]. lengths.
    + destruct (json.headIs "}" _) as [r5|] eqn:E5; [|discriminate].
      intros [= _ <-]. lengths.
  - intros depth s vs r. cbn [json.parseElements].
    destruct (json.parseValue _ _ _) as [v r0| |] eqn:E3; try discriminate.
    apply IHv in E3.
    destruct (json.headIs "," _) as [r1|] eqn:E4.
    + destruct (json.parseElements _ _ _) as [vs' r2| |] eqn:E5; try discriminate.
      apply IHe in E5. intros [= _ <-]. lengths.
    + destruct (json.headIs "]" _) as [r1|] eqn:E5; [|discriminate].
      intros [= _ <-]. lengths.
Qed.

Lemma parse_fuel (fuel : nat) :
  (forall depth s, 2 * String.length s + 1 <= fuel ->
     json.parseValue fuel depth s <> json.Exhausted)
  /\ (forall depth s, 2 * String.length s + 2 <= fuel ->
        json.parseMembers fuel depth s <> json.Exhausted)
  /\ (forall depth s, 2 * String.length s + 2 <= fuel ->
        json.parseElements fuel depth s <> json.Exhausted).
Proof.
  induction fuel as [|fuel (IHv & IHm & IHe)]; [repeat split; intros; lia|].
  repeat split.
  - intros depth s Hf. cbn [json.parseValue].
    destruct s as [|c t]; [discriminate|]. simpl in Hf.
    destruct (Ascii.eqb c "{").
    { destruct (_ <? _)%N; [discriminate|].
      destruct (json.headIs "}" _); [discriminate|].
      destruct (json.parseMembers _ _ _) eqn:E2; try discriminate.
      exfalso. revert E2. apply IHm. lengths. }
    destruct (Ascii.eqb c "[").
    { destruct (_ <? _)%N; [discriminate|].
      destruct (json.headIs "]" _); [discriminate|].
      destruct (json.parseElements _ _ _) eqn:E2; try discriminate.
      exfalso. revert E2. apply IHe. lengths. }
    destruct (Ascii.eqb c dquote).
    { destruct (json.scanString t) as [[body r1]|]; [|discriminate].
      destruct (json.unquote body); discriminate. }
    destruct (_ || _).
    { destruct (json.scanNumber _); discriminate. }
    destruct (json.startsWith "true" _); [discriminate|].
    destruct (json.startsWith "false" _); [discriminate|].
    destruct (json.startsWith "null" _); discriminate.
  - intros depth s Hf. cbn [json.parseMembers].
    destruct (json.headIs dquote s) as [t|] eqn:E0; [|discriminate].
    destruct (json.scanString t) as [[body r1]|] eqn:E1; [|discriminate].
    destruct (json.unquote body) as [key|]; [|discriminate].
    destruct (json.headIs ":" _) as [r2|] eqn:E2; [|discriminate].
    cbv zeta.
    destruct (json.parseValue _ _ _) as [v r4| |] eqn:E3; try discriminate.
    + pose proof (proj1 (parse_shorter fuel) _ _ _ _ E3) as Hs.
      destruct (json.headIs "," _) as [r5|] eqn:E4.
      * destruct (json.parseMembers _ _ _) as [ms' r6| |] eqn:E5;
          try discriminate.
        exfalso. revert E5. apply IHm. lengths.
      * destruct (json.headIs "}" _); discriminate.
    + exfalso. revert E3. apply IHv. lengths.
  - intros depth s Hf. cbn [json.parseElements].
    destruct (json.parseValue _ _ _) as [v r0| |] eqn:E3; try discriminate.
    + pose proof (proj1 (parse_shorter fuel) _ _ _ _ E3) as Hs.
      destruct (json.headIs "," _) as [r1|] eqn:E4.
      * destruct (json.parseElements _ _ _) as [vs' r2| |] eqn:E5;
          try discriminate.
        exfalso. revert E5. apply IHe. lengths.
      * destruct (json.headIs "]" _); discriminate.
    + exfalso. revert E3. apply IHv. lengths.
Qed.

(** The fuel [parse] gives is enough: the parse of an input ends with a
    value or with the verdict that the input is not JSON. *)
Theorem parse_fuel_enough (data : string) :
  json.parseValue (2 * String.length data + 2) 0 (json.skipSpace data)
  <> json.Exhausted.
Proof.
  apply (proj1 (parse_fuel _)). pose proof (skipSpace_length data). lia.
Qed.

(** ** Decoding *)

Lemma decodeMembers_noMember {T : Type} (names : list string)
    (store : nat -> string -> json.Value -> T -> result json.Error T)
    (ms : list (string * string * json.Value)) (cur : T) :
  json.noMember names ms = true ->
  json.decodeMembers names store ms cur = Ok cur.
Proof.
  induction ms as [|[[key raw] v] ms IH]; simpl; intros H; [reflexivity|].
  apply andb_prop in H. destruct H as [Hk Hms].
  destruct (json.lookupField names key); [discriminate | now apply IH].
Qed.

Lemma decodeElems_length {T : Type} (elem : json.Value -> result json.Error T)
    (es : list json.Value) (xs : list T) :
  json.decodeElems elem es = Ok xs -> List.length xs = List.length es.
Proof.
  revert xs. induction es as [|v es IH]; simpl; intros xs H.
  - now inversion H.
  - destruct (elem v) as [x|err]; simpl in H; [|discriminate].
    destruct (json.decodeElems elem es) as [ys|err]; simpl in H; [|discriminate].
    inversion H; subst. simpl. now rewrite (IH ys eq_refl).
Qed.

(** A payload that is an object with no commits member decodes, and to no
    commits. *)
Lemma UnmarshalPushPayload_no_commits (data : string)
    (ms : list (string * string * json.Value)) :
  json.parse data = Some (json.JObject ms) ->
  json.noMember ["commits"] ms = true ->
  UnmarshalPushPayload data = Ok {| Commits := [] |}.
Proof.
  intros Hp Hn. unfold UnmarshalPushPayload, json.Unmarshal. rewrite Hp.
  unfold decodePushPayload, json.decodeStruct.
  now apply decodeMembers_noMember.
Qed.

(** A payload whose one member is a commits array decodes, if it does, to
    as many commits as the array has elements. *)
Lemma UnmarshalPushPayload_commits_length (data raw : string)
    (es : list json.Value) (p : PushPayload) :
  json.parse data = Some (json.JObject [("commits", raw, json.JArray es)]) ->
  UnmarshalPushPayload data = Ok p ->
  List.length (Commits p) = List.length es.
Proof.
  intros Hp. unfold UnmarshalPushPayload, json.Unmarshal. rewrite Hp.
  unfold decodePushPayload, json.decodeStruct. simpl.
  destruct (json.decodeElems _ es) as [cs|err] eqn:Hd; simpl; [|discriminate].
  intros H. inversion H; subst. simpl. now apply decodeElems_length in Hd.
Qed.

(** ** Quoting *)

Section Quoting.

Variable isPrintTable : N -> bool.

Lemma quoteLoop_plain (c : ascii) (t : string) :
  plainByte c = true ->
  strconv.quoteLoop isPrintTable 0 (String c t)
  = String c (strconv.quoteLoop isPrintTable 0 t).
Proof.
  intros H.
  destruct c as [[] [] [] [] [] [] [] []]; vm_compute in H;
    try discriminate H; reflexivity.
Qed.

Lemma quoteLoop_plainText (s : string) :
  plainText s = true ->
  strconv.quoteLoop isPrintTable 0 s = s ++ String dquote EmptyString.
Proof.
  induction s as [|c s IH]; intros H; [reflexivity|].
  simpl in H. apply andb_prop in H. destruct H as [Hc Hs].
  rewrite (quoteLoop_plain c s Hc), (IH Hs). reflexivity.
Qed.

(** On a text of printable ASCII with no double quote and no backslash
    [%q] is the text between double quotes. *)
Lemma Quote_plainText (s : string) :
  plainText s = true -> strconv.Quote isPrintTable s = inDoubleQuotes s.
Proof.
  intros H. unfold strconv.Quote, inDoubleQuotes.
  now rewrite (quoteLoop_plainText s H).
Qed.

End Quoting.

(** ** formatEvent, one event type at a time *)

Section Formatter.

Variable isPrintTable : N -> bool.

Lemma formatEvent_push (e : Event) :
  Type_ e = "PushEvent" ->
  formatEvent isPrintTable e =
    match UnmarshalPushPayload (Payload e) with
    | Err _ => "Pushed commits to " ++ Name (Repo_ e)
    | Ok p =>
      if Nat.eqb (List.length (Commits p)) 1
      then "Pushed 1 commit to " ++ Name (Repo_ e)
      else "Pushed " ++ strconv.Itoa (List.length (Commits p))
           ++ " commits to " ++ Name (Repo_ e)
    end.
Proof. intros H. unfold formatEvent. rewrite H. reflexivity. Qed.

Lemma formatEvent_issues (e : Event) :
  Type_ e = "IssuesEvent" ->
  formatEvent isPrintTable e =
    verbCap (if extractAction (Payload e) =? EmptyString then "updated"
             else extractAction (Payload e))
    ++ " an issue in " ++ Name (Repo_ e).
Proof. intros H. unfold formatEvent. rewrite H. reflexivity. Qed.

Lemma formatEvent_issue_comment (e : Event) :
  Type_ e = "IssueCommentEvent" ->
  formatEvent isPrintTable e = "Commented on an issue in " ++ Name (Repo_ e).
Proof. intros H. unfold formatEvent. rewrite H. reflexivity. Qed.

Lemma formatEvent_pull_request (e : Event) :
  Type_ e = "PullRequestEvent" ->
  formatEvent isPrintTable e =
    match UnmarshalPullRequestPayload (Payload e) with
    | Ok p =>
      if (PRAction p =? "closed") && Merged (PullRequest p)
      then "Merged a pull request in " ++ Name (Repo_ e)
      else if negb (PRAction p =? EmptyString)
      then verbCap (PRAction p) ++ " a pull request in " ++ Name (Repo_ e)
      else "Updated a pull request in " ++ Name (Repo_ e)
    | Err _ => "Updated a pull request in " ++ Name (Repo_ e)
    end.
Proof. intros H. unfold formatEvent. rewrite H. reflexivity. Qed.

Lemma formatEvent_watch (e : Event) :
  Type_ e = "WatchEvent" -> formatEvent isPrintTable e = "Starred " ++ Name (Repo_ e).
Proof. intros H. unfold formatEvent. rewrite H. reflexivity. Qed.

Lemma formatEvent_fork (e : Event) :
  Type_ e = "ForkEvent" -> formatEvent isPrintTable e = "Forked " ++ Name (Repo_ e).
Proof. intros H. unfold formatEvent. rewrite H. reflexivity. Qed.

Lemma formatEvent_create (e : Event) :
  Type_ e = "CreateEvent" ->
  formatEvent isPrintTable e =
    match UnmarshalCreatePayload (Payload e) with
    | Ok p =>
      if RefType p =? "repository" then "Created repository " ++ Name (Repo_ e)
      else if negb (Ref p =? EmptyString)
      then "Created " ++ RefType p ++ " " ++ strconv.Quote isPrintTable (Ref p)
           ++ " in " ++ Name (Repo_ e)
      else "Created " ++ RefType p ++ " in " ++ Name (Repo_ e)
    | Err _ => "Created something in " ++ Name (Repo_ e)
    end.
Proof. intros H. unfold formatEvent. rewrite H. reflexivity. Qed.

Lemma formatEvent_default (e : Event) :
  ~ In (Type_ e) knownTypes ->
  formatEvent isPrintTable e =
    if negb (Name (Repo_ e) =? EmptyString) then Type_ e ++ " in " ++ Name (Repo_ e)
    else Type_ e.
Proof.
  intros H. unfold formatEvent.
  repeat match goal with
  | |- context [Type_ e =? ?t] =>
    destruct (String.eqb_spec (Type_ e) t) as [Heq|_];
    [exfalso; apply H; rewrite Heq; simpl; tauto|]
  end.
  reflexivity.
Qed.

Lemma known_or_not (t : string) : In t knownTypes \/ ~ In t knownTypes.
Proof.
  destruct (in_dec string_dec t knownTypes); [left | right]; assumption.
Qed.

End Formatter.

(** ** The claims about formatEvent *)

Section FormatterClaims.

Variable isPrintTable : N -> bool.

Lemma in_knownTypes (t : string) :
  In t knownTypes ->
  t = "PushEvent" \/ t = "IssuesEvent" \/ t = "IssueCommentEvent"
  \/ t = "PullRequestEvent" \/ t = "WatchEvent" \/ t = "ForkEvent"
  \/ t = "CreateEvent".
Proof. simpl. intuition auto. Qed.

Lemma pushed_nonempty (e : Event) :
  Type_ e = "PushEvent" -> formatEvent isPrintTable e <> EmptyString.
Proof.
  intros H. rewrite (formatEvent_push _ _ H).
  destruct (UnmarshalPushPayload (Payload e)) as [p|err]; [|discriminate].
  destruct (Nat.eqb _ 1); discriminate.
Qed.

Lemma pull_request_nonempty (e : Event) :
  Type_ e = "PullRequestEvent" -> formatEvent isPrintTable e <> EmptyString.
Proof.
  intros H. rewrite (formatEvent_pull_request _ _ H).
  destruct (UnmarshalPullRequestPayload (Payload e)) as [p|err]; [|discriminate].
  destruct (_ && _); [discriminate|].
  destruct (negb _); [apply append_cons_nonempty | discriminate].
Qed.

Lemma create_nonempty (e : Event) :
  Type_ e = "CreateEvent" -> formatEvent isPrintTable e <> EmptyString.
Proof.
  intros H. rewrite (formatEvent_create _ _ H).
  destruct (UnmarshalCreatePayload (Payload e)) as [p|err]; [|discriminate].
  destruct (RefType p =? "repository"); [discriminate|].
  destruct (negb _); discriminate.
Qed.

Lemma known_nonempty (e : Event) :
  In (Type_ e) knownTypes -> formatEvent isPrintTable e <> EmptyString.
Proof.
  intros H. apply in_knownTypes in H.
  destruct H as [H|[H|[H|[H|[H|[H|H]]]]]].
  - now apply pushed_nonempty.
  - rewrite (formatEvent_issues _ _ H). apply append_cons_nonempty.
  - rewrite (formatEvent_issue_comment _ _ H). discriminate.
  - now apply pull_request_nonempty.
  - rewrite (formatEvent_watch _ _ H). discriminate.
  - rewrite (formatEvent_fork _ _ H). discriminate.
  - now apply create_nonempty.
Qed.

(** C4, as amended.  [formatEvent] returns the empty string exactly for an
    event whose type tag and repo name are both empty, which the catch-all
    branch renders as the type tag alone; every event type with a case of
    its own, and every other event of the catch-all branch, gives a line
    that is not empty. *)
Theorem formatEvent_empty_iff (e : Event) :
  formatEvent isPrintTable e = EmptyString
  <-> Type_ e = EmptyString /\ Name (Repo_ e) = EmptyString.
Proof.
  destruct (known_or_not (Type_ e)) as [Hk|Hk].
  - split.
    + intros H. now apply known_nonempty in H.
    + intros [Ht _]. rewrite Ht in Hk. simpl in Hk.
      exfalso. intuition discriminate.
  - rewrite (formatEvent_default _ _ Hk).
    destruct (String.eqb_spec (Name (Repo_ e)) EmptyString) as [Hr|Hr]; simpl.
    + tauto.
    + split.
      * intros H. exfalso. revert H. apply append_cons_nonempty.
      * intros [_ H]. contradiction.
Qed.

(** C10.  For the types WatchEvent, ForkEvent and IssueCommentEvent the
    line depends on the type and the repo name only: two events of the
    same one of these types with the same repo name get the same line,
    whatever their payloads. *)
Theorem formatEvent_payload_independent (e1 e2 : Event) :
  Type_ e1 = "WatchEvent" \/ Type_ e1 = "ForkEvent"
  \/ Type_ e1 = "IssueCommentEvent" ->
  Type_ e2 = Type_ e1 ->
  Name (Repo_ e2) = Name (Repo_ e1) ->
  formatEvent isPrintTable e1 = formatEvent isPrintTable e2.
Proof.
  intros Ht H2 Hr. destruct Ht as [H|[H|H]]; rewrite H in H2.
  - now rewrite (formatEvent_watch _ _ H), (formatEvent_watch _ _ H2), Hr.
  - now rewrite (formatEvent_fork _ _ H), (formatEvent_fork _ _ H2), Hr.
  - now rewrite (formatEvent_issue_comment _ _ H),
      (formatEvent_issue_comment _ _ H2), Hr.
Qed.

(** C2, as amended.  For a PushEvent with repo name R: a payload that
    decodes to one commit gives the line for one commit; a payload that
    decodes to n commits, n other than one, gives the line with n; a
    payload that is an object with no commits member is of the second
    kind, with n = 0, and gives the line with 0; and a payload that does
    not decode gives the fallback line.  The number of commits is the
    number of elements of the commits array. *)
Theorem formatEvent_push_lines (e : Event) :
  Type_ e = "PushEvent" ->
  (forall p, UnmarshalPushPayload (Payload e) = Ok p ->
     List.length (Commits p) = 1 ->
     formatEvent isPrintTable e = "Pushed 1 commit to " ++ Name (Repo_ e))
  /\ (forall p, UnmarshalPushPayload (Payload e) = Ok p ->
        List.length (Commits p) <> 1 ->
        formatEvent isPrintTable e
        = "Pushed " ++ strconv.Itoa (List.length (Commits p))
          ++ " commits to " ++ Name (Repo_ e))
  /\ (forall raw es p,
        json.parse (Payload e)
        = Some (json.JObject [("commits", raw, json.JArray es)]) ->
        UnmarshalPushPayload (Payload e) = Ok p ->
        List.length (Commits p) = List.length es)
  /\ (forall ms, json.parse (Payload e) = Some (json.JObject ms) ->
        json.noMember ["commits"] ms = true ->
        formatEvent isPrintTable e = "Pushed 0 commits to " ++ Name (Repo_ e))
  /\ (forall err, UnmarshalPushPayload (Payload e) = Err err ->
        formatEvent isPrintTable e = "Pushed commits to " ++ Name (Repo_ e)).
Proof.
  intros Ht. rewrite (formatEvent_push _ _ Ht). repeat split.
  - intros p Hp Hn. now rewrite Hp, Hn.
  - intros p Hp Hn. rewrite Hp.
    apply Nat.eqb_neq in Hn. now rewrite Hn.
  - intros raw es p Hv Hp.
    exact (UnmarshalPushPayload_commits_length (Payload e) raw es p Hv Hp).
  - intros ms Hv Hn.
    now rewrite (UnmarshalPushPayload_no_commits (Payload e) ms Hv Hn).
  - intros err Hp. now rewrite Hp.
Qed.

(** C9.  For an IssuesEvent with repo name R the action is what decoding
    the payload as ActionPayload gives.  An action that is not empty is
    capitalized and put before the words for an issue; an empty action,
    and a payload that does not decode, give the line with Updated. *)
Theorem formatEvent_issues_lines (e : Event) :
  Type_ e = "IssuesEvent" ->
  (forall p, UnmarshalActionPayload (Payload e) = Ok p ->
     Action p <> EmptyString ->
     extractAction (Payload e) = Action p
     /\ formatEvent isPrintTable e
        = verbCap (Action p) ++ " an issue in " ++ Name (Repo_ e))
  /\ (forall p, UnmarshalActionPayload (Payload e) = Ok p ->
        Action p = EmptyString ->
        formatEvent isPrintTable e = "Updated an issue in " ++ Name (Repo_ e))
  /\ (forall err, UnmarshalActionPayload (Payload e) = Err err ->
        formatEvent isPrintTable e = "Updated an issue in " ++ Name (Repo_ e)).
Proof.
  intros Ht. rewrite (formatEvent_issues _ _ Ht). unfold extractAction.
  split; [|split].
  - intros p Hp Ha. rewrite Hp. split; [reflexivity|].
    apply String.eqb_neq in Ha. now rewrite Ha.
  - intros p Hp Ha. now rewrite Hp, Ha.
  - intros err Hp. now rewrite Hp.
Qed.

(** C6.  For a PullRequestEvent with repo name R whose payload decodes: a
    closed action with the merged flag gives Merged; any other action that
    is not empty is capitalized; and an empty action, like a payload that
    does not decode, gives Updated. *)
Theorem formatEvent_pull_request_lines (e : Event) :
  Type_ e = "PullRequestEvent" ->
  (forall p, UnmarshalPullRequestPayload (Payload e) = Ok p ->
     PRAction p = "closed" -> Merged (PullRequest p) = true ->
     formatEvent isPrintTable e
     = "Merged a pull request in " ++ Name (Repo_ e))
  /\ (forall p, UnmarshalPullRequestPayload (Payload e) = Ok p ->
        ~ (PRAction p = "closed" /\ Merged (PullRequest p) = true) ->
        PRAction p <> EmptyString ->
        formatEvent isPrintTable e
        = verbCap (PRAction p) ++ " a pull request in " ++ Name (Repo_ e))
  /\ (forall p, UnmarshalPullRequestPayload (Payload e) = Ok p ->
        PRAction p = EmptyString ->
        formatEvent isPrintTable e
        = "Updated a pull request in " ++ Name (Repo_ e))
  /\ (forall err, UnmarshalPullRequestPayload (Payload e) = Err err ->
        formatEvent isPrintTable e
        = "Updated a pull request in " ++ Name (Repo_ e)).
Proof.
  intros Ht. rewrite (formatEvent_pull_request _ _ Ht). repeat split.
  - intros p Hp Ha Hm. now rewrite Hp, Ha, Hm.
  - intros p Hp Hn Ha. rewrite Hp.
    destruct (String.eqb_spec (PRAction p) "closed") as [Hc|Hc];
      destruct (Merged (PullRequest p)) eqn:Hm; simpl;
      try (exfalso; apply Hn; now split);
      apply String.eqb_neq in Ha; now rewrite Ha.
  - intros p Hp Ha. now rewrite Hp, Ha.
  - intros err Hp. now rewrite Hp.
Qed.

(** C7, as amended.  For a CreateEvent with repo name R whose payload
    decodes: the ref type repository gives the line for a repository;
    otherwise a ref that is not empty is printed after the ref type as
    [%q] prints it, which is the ref between double quotes when the ref is
    printable ASCII with no double quote and no backslash in it;
    otherwise the line has the ref type alone.  A payload that does not
    decode gives the fallback line. *)
Theorem formatEvent_create_lines (e : Event) :
  Type_ e = "CreateEvent" ->
  (forall p, UnmarshalCreatePayload (Payload e) = Ok p ->
     RefType p = "repository" ->
     formatEvent isPrintTable e = "Created repository " ++ Name (Repo_ e))
  /\ (forall p, UnmarshalCreatePayload (Payload e) = Ok p ->
        RefType p <> "repository" -> Ref p <> EmptyString ->
        formatEvent isPrintTable e
        = "Created " ++ RefType p ++ " " ++ strconv.Quote isPrintTable (Ref p)
          ++ " in " ++ Name (Repo_ e))
  /\ (forall p, UnmarshalCreatePayload (Payload e) = Ok p ->
        RefType p <> "repository" -> Ref p <> EmptyString ->
        plainText (Ref p) = true ->
        formatEvent isPrintTable e
        = "Created " ++ RefType p ++ " " ++ inDoubleQuotes (Ref p)
          ++ " in " ++ Name (Repo_ e))
  /\ (forall p, UnmarshalCreatePayload (Payload e) = Ok p ->
        RefType p <> "repository" -> Ref p = EmptyString ->
        formatEvent isPrintTable e
        = "Created " ++ RefType p ++ " in " ++ Name (Repo_ e))
  /\ (forall err, UnmarshalCreatePayload (Payload e) = Err err ->
        formatEvent isPrintTable e = "Created something in " ++ Name (Repo_ e)).
Proof.
  intros Ht. rewrite (formatEvent_create _ _ Ht). repeat split.
  - intros p Hp Hr. now rewrite Hp, Hr.
  - intros p Hp Hr Hf. rewrite Hp.
    apply String.eqb_neq in Hr, Hf. now rewrite Hr, Hf.
  - intros p Hp Hr Hf Hplain. rewrite Hp.
    apply String.eqb_neq in Hr, Hf. rewrite Hr, Hf.
    now rewrite (Quote_plainText isPrintTable (Ref p) Hplain).
  - intros p Hp Hr Hf. rewrite Hp, Hf.
    apply String.eqb_neq in Hr. now rewrite Hr.
  - intros err Hp. now rewrite Hp.
Qed.

End FormatterClaims.

(** ** The fetcher and the entry point *)

Section RunClaims.

Variable isPrintTable : N -> bool.

Lemma Println_bullet (line : string) :
  Println ["-"; line] = "- " ++ line ++ newline.
Proof. reflexivity. Qed.

Lemma printEvent_loop (events : list Event) (out : string) :
  fold_left (printEvent isPrintTable) events out
  = out ++ bulletLines (map (formatEvent isPrintTable) events).
Proof.
  revert out. induction events as [|e events IH]; intros out.
  - simpl. now rewrite append_empty_r.
  - simpl. rewrite IH. unfold printEvent, bulletLines. simpl.
    destruct (formatEvent isPrintTable e =? EmptyString); simpl.
    + reflexivity.
    + rewrite Println_bullet. rewrite append_assoc. simpl.
      now rewrite append_assoc.
Qed.

Lemma main_fetched (w : World) (prog user : string) (events : list Event) :
  fetchEvents w user = Ok events ->
  main isPrintTable w [prog; user]
  = {| stdout := match events with
                 | [] => "no recent activity" ++ newline
                 | _ :: _ => bulletLines (map (formatEvent isPrintTable) events)
                 end;
       stderr := [];
       exitCode := 0 |}.
Proof.
  intros H. unfold main. simpl. rewrite H.
  destruct events as [|e events]; [reflexivity|].
  simpl Nat.eqb. cbv iota. now rewrite printEvent_loop.
Qed.

(** C5.  After a fetch that returned N events the run ends with exit
    status 0 and nothing on standard error.  With N = 0 standard output
    is the one line saying that there is no recent activity.  Otherwise
    every one of the N events is formatted, and standard output is, in the
    order of the events, one line made of a hyphen, a space and the
    formatted line for each formatted line that is not empty. *)
Theorem main_prints_events (w : World) (prog user : string)
    (events : list Event) :
  fetchEvents w user = Ok events ->
  (events = [] ->
     main isPrintTable w [prog; user]
     = {| stdout := "no recent activity" ++ newline; stderr := [];
          exitCode := 0 |})
  /\ (events <> [] ->
        main isPrintTable w [prog; user]
        = {| stdout := bulletLines (map (formatEvent isPrintTable) events);
             stderr := []; exitCode := 0 |})
  /\ List.length (map (formatEvent isPrintTable) events) = List.length events.
Proof.
  intros H. rewrite (main_fetched w prog user events H). repeat split.
  - now intros ->.
  - intros Hne. destruct events; [contradiction | reflexivity].
  - apply length_map.
Qed.

(** C1.  [formatEvent] is a function from events to strings: it has a
    line for every type tag, repo name and payload.  A payload that does
    not decode for its event type is answered by the fallback line of
    that type, and whatever the payloads of the fetched events are, the
    run ends with exit status 0 and writes nothing to standard error. *)
Theorem formatEvent_recovers (e : Event) :
  (Type_ e = "PushEvent" ->
   forall err, UnmarshalPushPayload (Payload e) = Err err ->
   formatEvent isPrintTable e = "Pushed commits to " ++ Name (Repo_ e))
  /\ (Type_ e = "IssuesEvent" ->
      forall err, UnmarshalActionPayload (Payload e) = Err err ->
      formatEvent isPrintTable e = "Updated an issue in " ++ Name (Repo_ e))
  /\ (Type_ e = "PullRequestEvent" ->
      forall err, UnmarshalPullRequestPayload (Payload e) = Err err ->
      formatEvent isPrintTable e
      = "Updated a pull request in " ++ Name (Repo_ e))
  /\ (Type_ e = "CreateEvent" ->
      forall err, UnmarshalCreatePayload (Payload e) = Err err ->
      formatEvent isPrintTable e = "Created something in " ++ Name (Repo_ e))
  /\ (forall w prog user events,
        fetchEvents w user = Ok events -> In e events ->
        exitCode (main isPrintTable w [prog; user]) = 0%Z
        /\ stderr (main isPrintTable w [prog; user]) = []).
Proof.
  split; [|split; [|split; [|split]]].
  - intros Ht err Hp. now rewrite (formatEvent_push _ _ Ht), Hp.
  - intros Ht err Hp. rewrite (formatEvent_issues _ _ Ht).
    unfold extractAction. now rewrite Hp.
  - intros Ht err Hp. now rewrite (formatEvent_pull_request _ _ Ht), Hp.
  - intros Ht err Hp. now rewrite (formatEvent_create _ _ Ht), Hp.
  - intros w prog user events Hf _.
    now rewrite (main_fetched w prog user events Hf).
Qed.

End RunClaims.

(** C3, as amended.  For a response obtained for the identifier [id]:
    when its body cannot be read, the result is the error of reading the
    response, whatever the status is.  When its body has been read:
    status 404 is the error that the user [id] is not found; status 403
    is the forbidden error with the body in it; any status other than
    200, 404 and 403 is the API error with the status line and the body
    in it; and status 200 is what decoding the body gives.  There a body
    that is not a JSON text, or that is a JSON value other than an array
    or null, is the invalid JSON error, and the body null is the empty
    sequence of events. *)
Theorem fetchEvents_by_status (w : World) (id : string) (res : Response) :
  rejectURL w (eventsURL id) = None ->
  Do w 10 (eventsRequest (eventsURL id)) = Ok res ->
  (forall err, Body res = Err err ->
     fetchEvents w id = Err (wrapError "failed to read response " err))
  /\ (forall body, Body res = Ok body ->
      (StatusCode res = 404%Z ->
       fetchEvents w id = Err (errorString ("user " ++ id ++ " not found")))
      /\ (StatusCode res = 403%Z ->
          fetchEvents w id
          = Err (errorString ("forbidden 403, response " ++ body)))
      /\ (StatusCode res <> 200%Z -> StatusCode res <> 404%Z ->
          StatusCode res <> 403%Z ->
          fetchEvents w id
          = Err (errorString
                   ("github api error " ++ Status res ++ " resp: " ++ body)))
      /\ (StatusCode res = 200%Z ->
          fetchEvents w id
          = match UnmarshalEvents body with
            | Ok events => Ok events
            | Err err => Err (wrapError "invalid json " (jsonError err))
            end)
      /\ (StatusCode res = 200%Z -> json.parse body = None ->
          fetchEvents w id
          = Err (wrapError "invalid json " (jsonError json.SyntaxError)))
      /\ (StatusCode res = 200%Z ->
          forall v, json.parse body = Some v ->
          json.isArray v = false -> json.isNull v = false ->
          fetchEvents w id
          = Err (wrapError "invalid json "
                   (jsonError json.UnmarshalTypeError)))
      /\ (StatusCode res = 200%Z -> json.parse body = Some json.JNull ->
          fetchEvents w id = Ok [])).
Proof.
  intros Hurl Hdo. unfold fetchEvents. rewrite Hurl, Hdo. split.
  - intros err ->. reflexivity.
  - intros body ->. repeat split.
    + intros ->. reflexivity.
    + intros ->. reflexivity.
    + intros H200 H404 H403.
      apply Z.eqb_neq in H200, H404, H403. now rewrite H200, H404, H403.
    + intros ->. simpl. now destruct (UnmarshalEvents body).
    + intros -> Hp. simpl. unfold UnmarshalEvents, json.Unmarshal.
      now rewrite Hp.
    + intros -> v Hp Ha Hn. simpl.
      unfold UnmarshalEvents, json.Unmarshal. rewrite Hp.
      destruct v; try discriminate; reflexivity.
    + intros -> Hp. simpl. unfold UnmarshalEvents, json.Unmarshal.
      now rewrite Hp.
Qed.

(** * The claims at concrete inputs *)

(** Runs [k] on the world of a goal about [main] or [fetchEvents]. *)
Ltac at_world k :=
  lazymatch goal with
  | |- main _ ?w _ = _ => k w
  | |- exitCode (main _ ?w _) = _ => k w
  | |- fetchEvents ?w _ = _ => k w
  end.

(** Runs [k] on the event of a goal about [formatEvent]. *)
Ltac at_event k :=
  lazymatch goal with
  | |- formatEvent _ ?e = _ => k e
  end.

(** C8 at the spelling opened, whose first byte is lower case, and at a
    text that begins with a digit. *)
Lemma verbCap_spec_witness :
  verbCap "opened" = "Opened" /\ verbCap "123abc" = "123abc".
Proof.
  split.
  - destruct (verbCap_spec "opened") as [Lower _].
    apply (Lower "o"%char "pened").
    + reflexivity.
    + vm_compute. split; discriminate.
  - destruct (verbCap_spec "123abc") as [_ Other]. apply Other.
    intros c rest H. inversion H; subst. vm_compute.
    intros [Hlo _]. now apply Hlo.
Defined.

(** C4 fails as stated: the event that the JSON object with no members
    decodes to has an empty type tag and an empty repo name, and its line
    is empty. *)
Lemma formatEvent_empty_counterexample :
  UnmarshalEvents "[{}]" = Ok [zeroEvent]
  /\ formatEvent emptyTable zeroEvent = EmptyString.
Proof. split; reflexivity. Qed.

(** C10 at two Watch events of one repo, one with an object as payload and
    one with a payload cut short, and at two Fork events. *)
Lemma formatEvent_payload_independent_witness :
  formatEvent emptyTable
    (event "WatchEvent" "octo/cat" (js "{'action':'started'}"))
  = formatEvent emptyTable (event "WatchEvent" "octo/cat" (js "{'action"))
  /\ formatEvent emptyTable (event "ForkEvent" "octo/cat" EmptyString)
     = formatEvent emptyTable (event "ForkEvent" "octo/cat" "[1, 2]").
Proof.
  split.
  - apply formatEvent_payload_independent; [left|..]; reflexivity.
  - apply formatEvent_payload_independent; [right; left|..]; reflexivity.
Defined.

(** C2 fails as stated for a payload without the commits field: the
    object with no members decodes, to no commits, and the line counts 0
    commits; it is not the fallback line. *)
Lemma formatEvent_push_counterexample :
  json.parse "{}" = Some (json.JObject [])
  /\ UnmarshalPushPayload "{}" = Ok {| Commits := [] |}
  /\ formatEvent emptyTable (event "PushEvent" "octo/cat" "{}")
     = "Pushed 0 commits to octo/cat"
  /\ formatEvent emptyTable (event "PushEvent" "octo/cat" "{}")
     <> "Pushed commits to octo/cat".
Proof. repeat split; try reflexivity. discriminate. Qed.

(** C2, as amended, at payloads with one commit, with two commits, with
    no commits member, and at no payload at all. *)
Lemma formatEvent_push_lines_witness :
  formatEvent emptyTable
    (event "PushEvent" "octo/cat" (js "{'commits':[{'sha':'a'}]}"))
  = "Pushed 1 commit to octo/cat"
  /\ formatEvent emptyTable
       (event "PushEvent" "octo/cat"
          (js "{'commits':[{'sha':'a'},{'sha':'b'}]}"))
     = "Pushed 2 commits to octo/cat"
  /\ formatEvent emptyTable (event "PushEvent" "octo/cat" (js "{'size':3}"))
     = "Pushed 0 commits to octo/cat"
  /\ formatEvent emptyTable (event "PushEvent" "octo/cat" EmptyString)
     = "Pushed commits to octo/cat".
Proof.
  repeat apply conj;
    at_event ltac:(fun e =>
      destruct (formatEvent_push_lines emptyTable e eq_refl)
        as (One & Many & _ & Missing & Fallback)).
  - now apply (One {| Commits := [{| SHA := "a" |}] |}).
  - apply (Many {| Commits := [{| SHA := "a" |}; {| SHA := "b" |}] |});
      [reflexivity | discriminate].
  - now apply (Missing [("size", "3", json.JNumber "3")]).
  - now apply (Fallback json.SyntaxError).
Defined.

(** C9 at an opened issue, at an empty action and at a payload whose
    action is a number. *)
Lemma formatEvent_issues_lines_witness :
  formatEvent emptyTable
    (event "IssuesEvent" "octo/cat" (js "{'action':'opened'}"))
  = "Opened an issue in octo/cat"
  /\ formatEvent emptyTable
       (event "IssuesEvent" "octo/cat" (js "{'action':''}"))
     = "Updated an issue in octo/cat"
  /\ formatEvent emptyTable
       (event "IssuesEvent" "octo/cat" (js "{'action':7}"))
     = "Updated an issue in octo/cat".
Proof.
  repeat apply conj;
    at_event ltac:(fun e =>
      destruct (formatEvent_issues_lines emptyTable e eq_refl)
        as (Action & NoAction & Fallback)).
  - apply (Action {| Action := "opened" |}); [reflexivity | discriminate].
  - now apply (NoAction {| Action := EmptyString |}).
  - now apply (Fallback json.UnmarshalTypeError).
Defined.

(** C6 at a merged pull request, an opened one, one with no action and
    one whose payload is not an object. *)
Lemma formatEvent_pull_request_lines_witness :
  formatEvent emptyTable
    (event "PullRequestEvent" "octo/cat"
       (js "{'action':'closed','pull_request':{'merged':true}}"))
  = "Merged a pull request in octo/cat"
  /\ formatEvent emptyTable
       (event "PullRequestEvent" "octo/cat" (js "{'action':'opened'}"))
     = "Opened a pull request in octo/cat"
  /\ formatEvent emptyTable
       (event "PullRequestEvent" "octo/cat" (js "{'number':1}"))
     = "Updated a pull request in octo/cat"
  /\ formatEvent emptyTable (event "PullRequestEvent" "octo/cat" "[]")
     = "Updated a pull request in octo/cat".
Proof.
  repeat apply conj;
    at_event ltac:(fun e =>
      destruct (formatEvent_pull_request_lines emptyTable e eq_refl)
        as (Merged & Action & NoAction & Fallback)).
  - now apply (Merged {| PRAction := "closed";
                         PullRequest := {| Merged := true |} |}).
  - apply (Action {| PRAction := "opened";
                     PullRequest := {| Merged := false |} |});
      [reflexivity | intros [H _]; discriminate H | discriminate].
  - now apply (NoAction {| PRAction := EmptyString;
                           PullRequest := {| Merged := false |} |}).
  - now apply (Fallback json.UnmarshalTypeError).
Defined.

(** C7 fails as stated for a ref with a double quote in it: the branch
    named a, double quote, b is printed with a backslash before its double
    quote, which is not the ref between double quotes. *)
Lemma formatEvent_create_counterexample :
  UnmarshalCreatePayload (js "{'ref_type':'branch','ref':'a\'b'}")
  = Ok {| RefType := "branch"; Ref := js "a'b" |}
  /\ formatEvent emptyTable
       (event "CreateEvent" "octo/cat"
          (js "{'ref_type':'branch','ref':'a\'b'}"))
     = js "Created branch 'a\'b' in octo/cat"
  /\ formatEvent emptyTable
       (event "CreateEvent" "octo/cat"
          (js "{'ref_type':'branch','ref':'a\'b'}"))
     <> "Created " ++ "branch" ++ " " ++ inDoubleQuotes (js "a'b")
        ++ " in " ++ "octo/cat".
Proof. repeat split; try reflexivity. vm_compute. discriminate. Qed.

(** C7, as amended, at a repository, a branch with a double quote in its
    name, a branch with a plain name, a tag with no ref and a payload that
    is not JSON. *)
Lemma formatEvent_create_lines_witness :
  formatEvent emptyTable
    (event "CreateEvent" "octo/cat" (js "{'ref_type':'repository'}"))
  = "Created repository octo/cat"
  /\ formatEvent emptyTable
       (event "CreateEvent" "octo/cat"
          (js "{'ref_type':'branch','ref':'a\'b'}"))
     = js "Created branch 'a\'b' in octo/cat"
  /\ formatEvent emptyTable
       (event "CreateEvent" "octo/cat"
          (js "{'ref_type':'branch','ref':'main'}"))
     = js "Created branch 'main' in octo/cat"
  /\ formatEvent emptyTable
       (event "CreateEvent" "octo/cat" (js "{'ref_type':'tag'}"))
     = "Created tag in octo/cat"
  /\ formatEvent emptyTable (event "CreateEvent" "octo/cat" "nope")
     = "Created something in octo/cat".
Proof.
  repeat apply conj;
    at_event ltac:(fun e =>
      destruct (formatEvent_create_lines emptyTable e eq_refl)
        as (Repository & Quoted & Plain & NoRef & Fallback)).
  - now apply (Repository {| RefType := "repository"; Ref := EmptyString |}).
  - apply (Quoted {| RefType := "branch"; Ref := js "a'b" |});
      [reflexivity | discriminate | discriminate].
  - apply (Plain {| RefType := "branch"; Ref := "main" |});
      [reflexivity | discriminate | discriminate | reflexivity].
  - apply (NoRef {| RefType := "tag"; Ref := EmptyString |});
      [reflexivity | discriminate | reflexivity].
  - now apply (Fallback json.SyntaxError).
Defined.

(** C1 at payloads that do not decode, one for each event type that reads
    its payload, and at a run over an event with such a payload. *)
Lemma formatEvent_recovers_witness :
  formatEvent emptyTable (event "PushEvent" "octo/cat" (js "{'commits':3}"))
  = "Pushed commits to octo/cat"
  /\ formatEvent emptyTable (event "IssuesEvent" "octo/cat" EmptyString)
     = "Updated an issue in octo/cat"
  /\ formatEvent emptyTable (event "PullRequestEvent" "octo/cat" "{")
     = "Updated a pull request in octo/cat"
  /\ formatEvent emptyTable (event "CreateEvent" "octo/cat" (js "{'ref':[]}"))
     = "Created something in octo/cat"
  /\ exitCode
       (main emptyTable
          (answering 200 "200 OK"
             (js "[{'type':'PushEvent','repo':{'name':'o/c'},'payload':7}]"))
          ["github-activity"; "octocat"])
     = 0%Z.
Proof.
  repeat apply conj;
    try at_event ltac:(fun e =>
      destruct (formatEvent_recovers emptyTable e)
        as (Push & Issues & PullRequest & Create & _)).
  - now apply (Push eq_refl json.UnmarshalTypeError).
  - now apply (Issues eq_refl json.SyntaxError).
  - now apply (PullRequest eq_refl json.SyntaxError).
  - now apply (Create eq_refl json.UnmarshalTypeError).
  - destruct (formatEvent_recovers emptyTable (event "PushEvent" "o/c" "7"))
      as (_ & _ & _ & _ & Run).
    at_world ltac:(fun w =>
      apply (Run w "github-activity" "octocat"
               [event "PushEvent" "o/c" "7"])).
    + reflexivity.
    + left. reflexivity.
Defined.

(** C5 at a fetch of three events, the second of which has an empty line,
    and at a fetch of none. *)
Lemma main_prints_events_witness :
  main emptyTable
    (answering 200 "200 OK"
       (js "[{'type':'WatchEvent','repo':{'name':'a/b'}}, {},
             {'type':'ForkEvent','repo':{'name':'c/d'}}]"))
    ["github-activity"; "octocat"]
  = {| stdout := "- Starred a/b" ++ newline ++ "- Forked c/d" ++ newline;
       stderr := []; exitCode := 0 |}
  /\ main emptyTable (answering 200 "200 OK" "[]")
       ["github-activity"; "octocat"]
     = {| stdout := "no recent activity" ++ newline; stderr := [];
          exitCode := 0 |}.
Proof.
  split.
  - at_world ltac:(fun w =>
      destruct (main_prints_events emptyTable w "github-activity" "octocat"
                  [event "WatchEvent" "a/b" EmptyString; zeroEvent;
                   event "ForkEvent" "c/d" EmptyString] eq_refl)
        as (_ & Some & _)).
    apply Some. discriminate.
  - at_world ltac:(fun w =>
      destruct (main_prints_events emptyTable w "github-activity" "octocat"
                  [] eq_refl)
        as (None & _)).
    now apply None.
Defined.

(** C3 fails as stated for the body null, which is a JSON text and not an
    array: with status 200 it is decoded without an error, to no events.
    It fails as well for a response with status 404 whose body cannot be
    read: the result is the error of reading, not the error that the user
    is not found. *)
Lemma fetchEvents_null_counterexample :
  json.parse "null" = Some json.JNull
  /\ json.isArray json.JNull = false
  /\ fetchEvents (answering 200 "200 OK" "null") "octocat" = Ok []
  /\ fetchEvents
       (truncating 404 "404 Not Found" (externalError "unexpected EOF"))
       "octocat"
     = Err (wrapError "failed to read response "
              (externalError "unexpected EOF"))
  /\ fetchEvents
       (truncating 404 "404 Not Found" (externalError "unexpected EOF"))
       "octocat"
     <> Err (errorString "user octocat not found").
Proof. repeat split. discriminate. Qed.

(** The response [answering] gives. *)
Ltac at_response k :=
  lazymatch goal with
  | |- fetchEvents (answering ?status ?line ?body) _ = _ =>
    k (answering status line body)
      {| StatusCode := status; Status := line; Body := Ok body |} body
  end.

(** C3, as amended, at one response for each case. *)
Lemma fetchEvents_by_status_witness :
  fetchEvents (answering 404 "404 Not Found" "{}") "octocat"
  = Err (errorString "user octocat not found")
  /\ fetchEvents (answering 403 "403 Forbidden" "rate limit") "octocat"
     = Err (errorString "forbidden 403, response rate limit")
  /\ fetchEvents (answering 500 "500 Internal Server Error" "oops") "octocat"
     = Err (errorString
              "github api error 500 Internal Server Error resp: oops")
  /\ fetchEvents (answering 200 "200 OK" (js "[{'type':'ForkEvent'}]"))
       "octocat"
     = Ok [event "ForkEvent" EmptyString EmptyString]
  /\ fetchEvents (answering 200 "200 OK" "[") "octocat"
     = Err (wrapError "invalid json " (jsonError json.SyntaxError))
  /\ fetchEvents (answering 200 "200 OK" "{}") "octocat"
     = Err (wrapError "invalid json " (jsonError json.UnmarshalTypeError))
  /\ fetchEvents (answering 200 "200 OK" "null") "octocat" = Ok []
  /\ fetchEvents
       (truncating 404 "404 Not Found" (externalError "unexpected EOF"))
       "octocat"
     = Err (wrapError "failed to read response "
              (externalError "unexpected EOF")).
Proof.
  repeat apply conj;
    try at_response ltac:(fun w res body =>
      destruct (fetchEvents_by_status w "octocat" res eq_refl eq_refl)
        as (_ & Read);
      destruct (Read body eq_refl)
        as (NotFound & Forbidden & Other & Decoded & NotJSON & NotArray
            & Null)).
  - now apply NotFound.
  - now apply Forbidden.
  - apply Other; discriminate.
  - now apply Decoded.
  - now apply NotJSON.
  - now apply (NotArray eq_refl (json.JObject [])).
  - now apply Null.
  - destruct (fetchEvents_by_status
                (truncating 404 "404 Not Found"
                   (externalError "unexpected EOF"))
                "octocat"
                {| StatusCode := 404; Status := "404 Not Found";
                   Body := Err (externalError "unexpected EOF") |}
                eq_refl eq_refl)
      as (Unread & _).
    now apply Unread.
Defined.

(** * Further properties of the program *)

(** ** main *)



(** X2.  When the fetch fails, [main] writes the word error and the error
    to standard error, nothing to standard output, and exits with status
    1. *)
Theorem main_reports_fetch_error (isPrintTable : N -> bool) (w : World)
    (prog user : string) (err : error) :
  fetchEvents w user = Err err ->
  main isPrintTable w [prog; user]
  = {| stdout := EmptyString; stderr := [ErrorText "error" err];
       exitCode := 1 |}.
Proof. intros H. unfold main. simpl. now rewrite H. Qed.

(** X2 at a response with status 404. *)
Lemma main_reports_fetch_error_witness :
  main emptyTable (answering 404 "404 Not Found" "{}")
    ["github-activity"; "octocat"]
  = {| stdout := EmptyString;
       stderr := [ErrorText "error" (errorString "user octocat not found")];
       exitCode := 1 |}.
Proof. now apply main_reports_fetch_error. Defined.

Lemma two_args (args : list string) :
  List.length args = 2 -> exists prog user, args = [prog; user].
Proof.
  destruct args as [|prog [|user [|x rest]]]; try discriminate.
  intros _. now exists prog, user.
Qed.

(** X3.  The exit status of a run is 0 exactly when the program got one
    argument and the fetch for it succeeded.  Any other run exits with
    status 1, has written nothing to standard output, and has written to
    standard error once: the usage line when the number of arguments is
    wrong, and otherwise the word error followed by the error of the
    fetch.  A run with status 0 has written nothing to standard error. *)
Theorem main_exit_status (isPrintTable : N -> bool) (w : World)
    (args : list string) :
  (exitCode (main isPrintTable w args) = 0%Z
   <-> exists prog user events,
         args = [prog; user] /\ fetchEvents w user = Ok events)
  /\ (exitCode (main isPrintTable w args) <> 0%Z
      -> exitCode (main isPrintTable w args) = 1%Z
         /\ stdout (main isPrintTable w args) = EmptyString
         /\ ((List.length args <> 2
              /\ stderr (main isPrintTable w args)
                 = [Text "Use it this whay : github-activity <username>"])
             \/ exists prog user err,
                  args = [prog; user] /\ fetchEvents w user = Err err
                  /\ stderr (main isPrintTable w args)
                     = [ErrorText "error" err]))
  /\ (exitCode (main isPrintTable w args) = 0%Z
      -> stderr (main isPrintTable w args) = []).
Proof.
  destruct (Nat.eq_dec (List.length args) 2) as [H2|H2].
  - destruct (two_args args H2) as (prog & user & ->).
    destruct (fetchEvents w user) as [events|err] eqn:Hf.
    + rewrite (main_fetched isPrintTable w prog user events Hf). simpl.
      repeat split; try easy.
      intros _. now exists prog, user, events.
    + unfold main. simpl. rewrite Hf. simpl. split; [|split; [|easy]].
      * split; [discriminate|].
        intros (prog' & user' & events & [= -> ->] & H). congruence.
      * intros _. repeat split. right. now exists prog, user, err.
  - unfold main. apply Nat.eqb_neq in H2. rewrite H2. simpl.
    apply Nat.eqb_neq in H2. split; [|split; [|easy]].
    + split; [discriminate|].
      intros (prog & user & events & -> & _). now contradiction H2.
    + intros _. repeat split. now left.
Qed.

(** X3 at a run whose fetch is answered with status 500, at a run with
    no argument, and at a run whose fetch is answered with an empty
    array. *)
Lemma main_exit_status_witness :
  (exitCode (main emptyTable (answering 500 "500 Internal Server Error" "")
               ["github-activity"; "octocat"]) = 1%Z
   /\ stdout (main emptyTable (answering 500 "500 Internal Server Error" "")
                ["github-activity"; "octocat"]) = EmptyString)
  /\ exitCode (main emptyTable (answering 200 "200 OK" "[]")
                 ["github-activity"]) = 1%Z
  /\ stderr (main emptyTable (answering 200 "200 OK" "[]")
               ["github-activity"; "octocat"]) = [].
Proof.
  repeat apply conj.
  - destruct (main_exit_status emptyTable
                (answering 500 "500 Internal Server Error" "")
                ["github-activity"; "octocat"]) as (_ & Failed & _).
    now destruct (Failed ltac:(discriminate)) as (Code & _).
  - destruct (main_exit_status emptyTable
                (answering 500 "500 Internal Server Error" "")
                ["github-activity"; "octocat"]) as (_ & Failed & _).
    now destruct (Failed ltac:(discriminate)) as (_ & Output & _).
  - destruct (main_exit_status emptyTable (answering 200 "200 OK" "[]")
                ["github-activity"]) as (_ & Failed & _).
    now destruct (Failed ltac:(discriminate)) as (Code & _).
  - destruct (main_exit_status emptyTable (answering 200 "200 OK" "[]")
                ["github-activity"; "octocat"]) as (_ & _ & Succeeded).
    now apply Succeeded.
Defined.

(** The line of an event is empty exactly when its type tag and its repo
    name are. *)
Lemma formatEvent_blank (isPrintTable : N -> bool) (e : Event) :
  formatEvent isPrintTable e = EmptyString
  <-> Type_ e = EmptyString /\ Name (Repo_ e) = EmptyString.
Proof.
  destruct (known_or_not (Type_ e)) as [Hk|Hk].
  - split.
    + intros H. now apply known_nonempty in H.
    + intros [Ht _]. rewrite Ht in Hk. simpl in Hk.
      exfalso. intuition discriminate.
  - rewrite (formatEvent_default _ _ Hk).
    destruct (String.eqb_spec (Name (Repo_ e)) EmptyString) as [Hr|Hr]; simpl.
    + tauto.
    + split.
      * intros H. exfalso. revert H. apply append_cons_nonempty.
      * intros [_ H]. contradiction.
Qed.

Lemma bulletLines_empty (lines : list string) :
  bulletLines lines = EmptyString
  <-> Forall (fun line => line = EmptyString) lines.
Proof.
  unfold bulletLines. induction lines as [|line lines IH]; simpl.
  - split; [constructor | reflexivity].
  - destruct (String.eqb_spec line EmptyString) as [->|Hne]; simpl.
    + rewrite IH. split.
      * now constructor.
      * intros H. now inversion H.
    + split; [discriminate|].
      intros H. inversion H; subst. contradiction.
Qed.

(** X4.  A run whose fetch succeeded writes nothing at all to standard
    output exactly when at least one event was fetched and every fetched
    event has an empty type tag and an empty repo name: the line that
    says there is no recent activity is written for an empty array only,
    and an event with neither type nor repo gets no line. *)
Theorem main_silent_iff (isPrintTable : N -> bool) (w : World)
    (prog user : string) (events : list Event) :
  fetchEvents w user = Ok events ->
  (stdout (main isPrintTable w [prog; user]) = EmptyString
   <-> events <> []
       /\ Forall (fun e => Type_ e = EmptyString
                           /\ Name (Repo_ e) = EmptyString) events).
Proof.
  intros Hf. rewrite (main_fetched isPrintTable w prog user events Hf).
  destruct events as [|e events]; cbn [stdout].
  - split; [discriminate | now intros [H _]].
  - rewrite bulletLines_empty, Forall_map.
    split.
    + intros H. split; [discriminate|].
      revert H. apply Forall_impl. intros a. apply formatEvent_blank.
    + intros [_ H]. revert H. apply Forall_impl.
      intros a. apply formatEvent_blank.
Qed.

(** X4 at a response that is an array of two objects with no members. *)
Lemma main_silent_iff_witness :
  stdout (main emptyTable (answering 200 "200 OK" "[{}, {}]")
            ["github-activity"; "octocat"])
  = EmptyString.
Proof.
  apply (main_silent_iff emptyTable (answering 200 "200 OK" "[{}, {}]")
           "github-activity" "octocat" [zeroEvent; zeroEvent] eq_refl).
  split; [discriminate|]. repeat constructor.
Defined.

(** ** fetchEvents *)

(** X5.  The failures of the exchange, in the order [fetchEvents] meets
    them: an error of [http.NewRequest] is returned as it is; an error of
    [client.Do] is wrapped with the words request failed; and an error of
    reading the body is wrapped with the words failed to read response,
    whatever the status code of the response is, since the body is read
    before the status is looked at. *)
Theorem fetchEvents_transport_errors (w : World) (id : string) :
  (forall err, rejectURL w (eventsURL id) = Some err ->
     fetchEvents w id = Err err)
  /\ (forall err, rejectURL w (eventsURL id) = None ->
        Do w 10 (eventsRequest (eventsURL id)) = Err err ->
        fetchEvents w id = Err (wrapError "request failed " err))
  /\ (forall res err, rejectURL w (eventsURL id) = None ->
        Do w 10 (eventsRequest (eventsURL id)) = Ok res ->
        Body res = Err err ->
        fetchEvents w id = Err (wrapError "failed to read response " err)).
Proof.
  unfold fetchEvents. repeat split.
  - intros err ->. reflexivity.
  - intros err -> ->. reflexivity.
  - intros res err -> -> ->. reflexivity.
Qed.

(** X5 at a URL that is refused, a host that is not reached, and a
    response with status 404 whose body breaks off. *)
Lemma fetchEvents_transport_errors_witness :
  fetchEvents (refusing (externalError "invalid URL escape")) "100%zz"
  = Err (externalError "invalid URL escape")
  /\ fetchEvents (unreachable (externalError "no such host")) "octocat"
     = Err (wrapError "request failed " (externalError "no such host"))
  /\ fetchEvents (truncating 404 "404 Not Found"
                    (externalError "unexpected EOF")) "octocat"
     = Err (wrapError "failed to read response "
              (externalError "unexpected EOF")).
Proof.
  repeat apply conj.
  - destruct (fetchEvents_transport_errors
                (refusing (externalError "invalid URL escape")) "100%zz")
      as (Refused & _).
    now apply Refused.
  - destruct (fetchEvents_transport_errors
                (unreachable (externalError "no such host")) "octocat")
      as (_ & Failed & _).
    now apply Failed.
  - destruct (fetchEvents_transport_errors
                (truncating 404 "404 Not Found"
                   (externalError "unexpected EOF")) "octocat")
      as (_ & _ & Unread).
    now apply (Unread {| StatusCode := 404; Status := "404 Not Found";
                         Body := Err (externalError "unexpected EOF") |}).
Defined.

(** X6.  [fetchEvents] returns events in one case only: the request was
    made and answered, the body was read, the status code is 200, and the
    body decodes as a sequence of events; the events returned are the
    decoded ones. *)
Theorem fetchEvents_ok_iff (w : World) (id : string) (events : list Event) :
  fetchEvents w id = Ok events
  <-> exists res body,
        rejectURL w (eventsURL id) = None
        /\ Do w 10 (eventsRequest (eventsURL id)) = Ok res
        /\ Body res = Ok body
        /\ StatusCode res = 200%Z
        /\ UnmarshalEvents body = Ok events.
Proof.
  unfold fetchEvents. split.
  - destruct (rejectURL w (eventsURL id)); [discriminate|].
    destruct (Do w 10 _) as [res|err]; [|discriminate].
    destruct (Body res) as [body|err] eqn:Hb; [|discriminate].
    destruct (Z.eqb_spec (StatusCode res) 200) as [H200|H200].
    + destruct (UnmarshalEvents body) as [evs|err] eqn:Hu; [|discriminate].
      intros [= <-]. now exists res, body.
    + destruct (_ =? 404)%Z; [discriminate|].
      destruct (_ =? 403)%Z; discriminate.
  - intros (res & body & -> & -> & -> & -> & ->). reflexivity.
Qed.

(** X6 at a response with status 200 and one event in its body. *)
Lemma fetchEvents_ok_iff_witness :
  fetchEvents (answering 200 "200 OK" (js "[{'type':'ForkEvent'}]")) "octocat"
  = Ok [event "ForkEvent" EmptyString EmptyString].
Proof.
  apply fetchEvents_ok_iff.
  now exists {| StatusCode := 200; Status := "200 OK";
                Body := Ok (js "[{'type':'ForkEvent'}]") |},
             (js "[{'type':'ForkEvent'}]").
Defined.

(** X7.  The result of [fetchEvents] depends on the world through two
    things only: whether the events URL of the identifier, which is the
    identifier put as it is between the users path of the API and the
    word events, is accepted, and what the GET request for this URL with
    the two headers User-Agent and Accept gets under a timeout of 10
    seconds.  Two worlds that treat this URL and this request alike give
    the same result. *)
Theorem fetchEvents_same_request (w1 w2 : World) (id : string) :
  rejectURL w1 ("https://api.github.com/users/" ++ id ++ "/events")
  = rejectURL w2 ("https://api.github.com/users/" ++ id ++ "/events") ->
  Do w1 10
    {| Method := "GET";
       URL := "https://api.github.com/users/" ++ id ++ "/events";
       Header := [("User-Agent", "github-activity-cli");
                  ("Accept", "application/vnd.github+json")] |}
  = Do w2 10
      {| Method := "GET";
         URL := "https://api.github.com/users/" ++ id ++ "/events";
         Header := [("User-Agent", "github-activity-cli");
                    ("Accept", "application/vnd.github+json")] |} ->
  fetchEvents w1 id = fetchEvents w2 id.
Proof.
  intros Hurl Hdo. unfold fetchEvents, eventsRequest, eventsURL.
  now rewrite Hurl, Hdo.
Qed.

(** X7 at a world that answers every request and a world that answers
    this one only. *)
Lemma fetchEvents_same_request_witness :
  fetchEvents (answering 200 "200 OK" "[]") "octocat"
  = fetchEvents
      (answeringOnly 10 "https://api.github.com/users/octocat/events"
         {| StatusCode := 200; Status := "200 OK"; Body := Ok "[]" |})
      "octocat".
Proof. now apply fetchEvents_same_request. Defined.

(** ** formatEvent *)

(** X8.  Every line [formatEvent] returns ends with the repo name of the
    event, whatever the type tag and the payload are. *)
Theorem formatEvent_ends_with_repo (isPrintTable : N -> bool) (e : Event) :
  exists words, formatEvent isPrintTable e = words ++ Name (Repo_ e).
Proof.
  destruct (known_or_not (Type_ e)) as [Hk|Hk].
  - apply in_knownTypes in Hk.
    destruct Hk as [H|[H|[H|[H|[H|[H|H]]]]]].
    + rewrite (formatEvent_push _ _ H).
      destruct (UnmarshalPushPayload (Payload e)) as [p|err];
        [|now exists "Pushed commits to "].
      destruct (Nat.eqb _ 1); [now exists "Pushed 1 commit to "|].
      exists ("Pushed " ++ strconv.Itoa (List.length (Commits p))
              ++ " commits to ").
      now rewrite !append_assoc.
    + rewrite (formatEvent_issues _ _ H).
      eexists. now rewrite <- append_assoc.
    + rewrite (formatEvent_issue_comment _ _ H). now eexists.
    + rewrite (formatEvent_pull_request _ _ H).
      destruct (UnmarshalPullRequestPayload (Payload e)) as [p|err];
        [|now eexists].
      destruct (_ && _); [now eexists|].
      destruct (negb _); [|now eexists].
      eexists. now rewrite <- append_assoc.
    + rewrite (formatEvent_watch _ _ H). now eexists.
    + rewrite (formatEvent_fork _ _ H). now eexists.
    + rewrite (formatEvent_create _ _ H).
      destruct (UnmarshalCreatePayload (Payload e)) as [p|err];
        [|now eexists].
      destruct (RefType p =? "repository"); [now eexists|].
      destruct (negb _).
      * exists ("Created " ++ RefType p ++ " "
                ++ strconv.Quote isPrintTable (Ref p) ++ " in ").
        now rewrite !append_assoc.
      * exists ("Created " ++ RefType p ++ " in ").
        now rewrite !append_assoc.
  - rewrite (formatEvent_default _ _ Hk).
    destruct (String.eqb_spec (Name (Repo_ e)) EmptyString) as [Hr|Hr]; simpl.
    + exists (Type_ e). now rewrite Hr, append_empty_r.
    + exists (Type_ e ++ " in "). now rewrite append_assoc.
Qed.

(** X9.  The three event types whose case does not read the payload: a
    WatchEvent is a star, a ForkEvent a fork and an IssueCommentEvent a
    comment on an issue, each followed by the repo name. *)
Theorem formatEvent_fixed_lines (isPrintTable : N -> bool) (e : Event) :
  (Type_ e = "WatchEvent" ->
   formatEvent isPrintTable e = "Starred " ++ Name (Repo_ e))
  /\ (Type_ e = "ForkEvent" ->
      formatEvent isPrintTable e = "Forked " ++ Name (Repo_ e))
  /\ (Type_ e = "IssueCommentEvent" ->
      formatEvent isPrintTable e
      = "Commented on an issue in " ++ Name (Repo_ e)).
Proof.
  repeat split.
  - apply formatEvent_watch.
  - apply formatEvent_fork.
  - apply formatEvent_issue_comment.
Qed.

(** X9 at one event of each of the three types. *)
Lemma formatEvent_fixed_lines_witness :
  formatEvent emptyTable (event "WatchEvent" "octo/cat" "{}")
  = "Starred octo/cat"
  /\ formatEvent emptyTable (event "ForkEvent" "octo/cat" "{}")
     = "Forked octo/cat"
  /\ formatEvent emptyTable (event "IssueCommentEvent" "octo/cat" "{}")
     = "Commented on an issue in octo/cat".
Proof.
  repeat apply conj;
    at_event ltac:(fun e =>
      destruct (formatEvent_fixed_lines emptyTable e)
        as (Watch & Fork & Comment)).
  - now apply Watch.
  - now apply Fork.
  - now apply Comment.
Defined.

(** X10.  An event whose type tag is none of the seven with a case of
    their own, a tag that differs from one of them in case included, gets
    the tag, the word in and the repo name when the repo name is not
    empty, and the tag alone when it is. *)
Theorem formatEvent_other_types (isPrintTable : N -> bool) (e : Event) :
  ~ In (Type_ e)
      ["PushEvent"; "IssuesEvent"; "IssueCommentEvent"; "PullRequestEvent";
       "WatchEvent"; "ForkEvent"; "CreateEvent"] ->
  (Name (Repo_ e) <> EmptyString ->
   formatEvent isPrintTable e = Type_ e ++ " in " ++ Name (Repo_ e))
  /\ (Name (Repo_ e) = EmptyString -> formatEvent isPrintTable e = Type_ e).
Proof.
  intros Hk. rewrite (formatEvent_default _ _ Hk). split.
  - intros H. apply String.eqb_neq in H. now rewrite H.
  - intros ->. reflexivity.
Qed.

(** X10 at a release event and at a push event spelled in lower case with
    no repo name. *)
Lemma formatEvent_other_types_witness :
  formatEvent emptyTable (event "ReleaseEvent" "octo/cat" "{}")
  = "ReleaseEvent in octo/cat"
  /\ formatEvent emptyTable (event "pushevent" EmptyString "{}")
     = "pushevent".
Proof.
  split.
  - apply formatEvent_other_types; [|discriminate].
    simpl. intuition discriminate.
  - apply formatEvent_other_types; [|reflexivity].
    simpl. intuition discriminate.
Defined.

(** ** verbCap *)

(** X11.  [verbCap] applied twice is [verbCap] applied once. *)
Theorem verbCap_idempotent (s : string) : verbCap (verbCap s) = verbCap s.
Proof.
  destruct s as [|c rest]; [reflexivity|].
  destruct (N.le_gt_cases 97 (code c)) as [Hlo|Hlo];
    [destruct (N.le_gt_cases (code c) 122) as [Hhi|Hhi]|].
  - rewrite (verbCap_lower c rest) by lia.
    apply verbCap_other. rewrite code_byte; [lia|].
    pose proof (code_bound c). lia.
  - now rewrite !(verbCap_other c rest) by lia.
  - now rewrite !(verbCap_other c rest) by lia.
Qed.

(** X12.  [verbCap] changes the first byte at most: the result is as long
    as the argument, agrees with it after the first byte, and is empty
    for the empty string only. *)
Theorem verbCap_keeps_rest (s : string) :
  String.length (verbCap s) = String.length s
  /\ skip 1 (verbCap s) = skip 1 s
  /\ (verbCap s = EmptyString <-> s = EmptyString).
Proof.
  destruct s as [|c rest].
  - repeat split; easy.
  - unfold verbCap. simpl.
    destruct (_ && _); repeat split; easy.
Qed.

(** X13.  [verbCap] looks at the beginning of its argument only: what is
    appended to a text that is not empty is left as it is. *)
Theorem verbCap_append (s t : string) :
  s <> EmptyString -> verbCap (s ++ t) = verbCap s ++ t.
Proof.
  destruct s as [|c rest]; [contradiction|]. intros _.
  unfold verbCap. simpl. now destruct (_ && _).
Qed.

(** X13 at the action opened with the words for an issue after it. *)
Lemma verbCap_append_witness :
  verbCap ("opened" ++ " an issue") = "Opened" ++ " an issue".
Proof. now apply (verbCap_append "opened" " an issue"). Defined.

(** ** The parser on texts without white space *)

(** A parse that has ended, with a value or with the verdict that the text
    is not JSON, ends in the same way with more fuel. *)
Lemma parse_more_fuel (fuel : nat) :
  (forall depth s k, json.parseValue fuel depth s <> json.Exhausted ->
     json.parseValue (fuel + k) depth s = json.parseValue fuel depth s)
  /\ (forall depth s k, json.parseMembers fuel depth s <> json.Exhausted ->
        json.parseMembers (fuel + k) depth s = json.parseMembers fuel depth s)
  /\ (forall depth s k, json.parseElements fuel depth s <> json.Exhausted ->
        json.parseElements (fuel + k) depth s
        = json.parseElements fuel depth s).
Proof.
  induction fuel as [|fuel (IHv & IHm & IHe)];
    [repeat split; intros depth s k H; now contradiction H|].
  repeat split; intros depth s k; change (S fuel + k) with (S (fuel + k)).
  - cbn [json.parseValue].
    destruct s as [|c t]; [reflexivity|].
    destruct (Ascii.eqb c "{").
    { destruct (_ <? _)%N; [reflexivity|].
      destruct (json.headIs "}" _); [reflexivity|].
      intros H. rewrite IHm; [reflexivity|].
      intros E. now rewrite E in H. }
    destruct (Ascii.eqb c "[").
    { destruct (_ <? _)%N; [reflexivity|].
      destruct (json.headIs "]" _); [reflexivity|].
      intros H. rewrite IHe; [reflexivity|].
      intros E. now rewrite E in H. }
    reflexivity.
  - cbn [json.parseMembers].
    destruct (json.headIs dquote s) as [t|]; [|reflexivity].
    destruct (json.scanString t) as [[body r1]|]; [|reflexivity].
    destruct (json.unquote body) as [key|]; [|reflexivity].
    destruct (json.headIs ":" _) as [r2|]; [|reflexivity].
    cbv zeta. intros H.
    rewrite IHv; [|intros E; now rewrite E in H].
    destruct (json.parseValue fuel _ _) as [v r4| |]; try reflexivity.
    destruct (json.headIs "," _) as [r5|]; [|reflexivity].
    rewrite IHm; [reflexivity|]. intros E. now rewrite E in H.
  - cbn [json.parseElements]. intros H.
    rewrite IHv; [|intros E; now rewrite E in H].
    destruct (json.parseValue fuel _ _) as [v r4| |]; try reflexivity.
    destruct (json.headIs "," _) as [r5|]; [|reflexivity].
    rewrite IHe; [reflexivity|]. intros E. now rewrite E in H.
Qed.

(** A value scanned with some fuel from the whole input, with white space
    only after it, is what [parse] returns. *)
Lemma parse_of_parseValue (fuel : nat) (data : string) (v : json.Value)
    (r : string) :
  json.parseValue fuel 0 (json.skipSpace data) = json.Scanned v r ->
  json.skipSpace r = EmptyString ->
  json.parse data = Some v.
Proof.
  intros Hv Hr. unfold json.parse.
  assert (H : json.parseValue (2 * String.length data + 2) 0
                (json.skipSpace data) = json.Scanned v r).
  { destruct (Nat.le_ge_cases fuel (2 * String.length data + 2)) as [Hle|Hle].
    - replace (2 * String.length data + 2)
        with (fuel + (2 * String.length data + 2 - fuel)) by lia.
      rewrite (proj1 (parse_more_fuel fuel)); [assumption|].
      now rewrite Hv.
    - rewrite <- Hv.
      replace fuel
        with (2 * String.length data + 2
              + (fuel - (2 * String.length data + 2))) by lia.
      symmetry. apply (proj1 (parse_more_fuel _)).
      apply parse_fuel_enough. }
  now rewrite H, Hr.
Qed.

Lemma plainByte_scan (c : ascii) :
  plainByte c = true ->
  Ascii.eqb c dquote = false /\ Ascii.eqb c backslash = false
  /\ (code c <? 32)%N = false /\ (code c <? utf8.RuneSelf)%N = true.
Proof.
  intros H.
  destruct c as [[] [] [] [] [] [] [] []]; vm_compute in H;
    try discriminate H; repeat split.
Qed.

Lemma scanString_plain (s rest : string) :
  plainText s = true ->
  json.scanString (s ++ String dquote rest) = Some (s, rest).
Proof.
  induction s as [|c s IH]; intros H.
  - reflexivity.
  - simpl in H. apply andb_prop in H. destruct H as [Hc Hs].
    destruct (plainByte_scan c Hc) as (Hq & Hb & Hctl & _).
    cbn [append json.scanString]. rewrite Hq, Hb, Hctl, (IH Hs).
    reflexivity.
Qed.

Lemma unquote_plain (s : string) :
  plainText s = true -> json.unquote s = Some s.
Proof.
  unfold json.unquote. induction s as [|c s IH]; intros H.
  - reflexivity.
  - simpl in H. apply andb_prop in H. destruct H as [Hc Hs].
    destruct (plainByte_scan c Hc) as (Hq & Hb & Hctl & Hself).
    cbn [json.unquoteLoop]. rewrite Hq, Hb, Hctl, Hself, (IH Hs).
    reflexivity.
Qed.

Lemma length_append (a b : string) :
  String.length (a ++ b) = String.length a + String.length b.
Proof. induction a as [|c a IH]; simpl; [reflexivity | now rewrite IH]. Qed.

Lemma prefix_of_append (a b : string) :
  prefix_of (String.length (a ++ b) - String.length b) (a ++ b) = a.
Proof.
  rewrite length_append.
  replace (String.length a + String.length b - String.length b)
    with (String.length a) by lia.
  induction a as [|c a IH]; simpl.
  - now destruct b.
  - now rewrite IH.
Qed.

Lemma prefix_empty (s : string) : String.prefix EmptyString s = true.
Proof. now destruct s. Qed.

Lemma startsWith_append (p rest : string) :
  json.startsWith p (p ++ rest) = Some rest.
Proof.
  unfold json.startsWith.
  assert (H : String.prefix p (p ++ rest) = true
              /\ skip (String.length p) (p ++ rest) = rest).
  { induction p as [|c p [IH1 IH2]]; simpl.
    - split; [apply prefix_empty | reflexivity].
    - destruct (ascii_dec c c) as [_|Hne]; [|contradiction].
      now split. }
  destruct H as [-> ->]. reflexivity.
Qed.

Lemma render_opens (depth : N) (v : json.Value) (rest : string) :
  plainValue depth v = true -> opensValue (render v ++ rest).
Proof.
  destruct v as [|[]|literal|s|vs|ms]; try discriminate;
    intros _; repeat split.
Qed.

Lemma parseValue_more (fuel fuel' : nat) (depth : N) (s : string)
    (v : json.Value) (r : string) :
  json.parseValue fuel depth s = json.Scanned v r -> fuel <= fuel' ->
  json.parseValue fuel' depth s = json.Scanned v r.
Proof.
  intros H Hle. replace fuel' with (fuel + (fuel' - fuel)) by lia.
  rewrite (proj1 (parse_more_fuel fuel)); [assumption | now rewrite H].
Qed.

Lemma parseMembers_more (fuel fuel' : nat) (depth : N) (s : string)
    (ms : list (string * string * json.Value)) (r : string) :
  json.parseMembers fuel depth s = json.Scanned ms r -> fuel <= fuel' ->
  json.parseMembers fuel' depth s = json.Scanned ms r.
Proof.
  intros H Hle. replace fuel' with (fuel + (fuel' - fuel)) by lia.
  rewrite (proj1 (proj2 (parse_more_fuel fuel))); [assumption | now rewrite H].
Qed.

Lemma parseElements_more (fuel fuel' : nat) (depth : N) (s : string)
    (vs : list json.Value) (r : string) :
  json.parseElements fuel depth s = json.Scanned vs r -> fuel <= fuel' ->
  json.parseElements fuel' depth s = json.Scanned vs r.
Proof.
  intros H Hle. replace fuel' with (fuel + (fuel' - fuel)) by lia.
  rewrite (proj2 (proj2 (parse_more_fuel fuel))); [assumption | now rewrite H].
Qed.

Lemma elements_read_back (vs : list json.Value) :
  Forall readsBack vs -> vs <> [] ->
  forall depth rest, forallb (plainValue depth) vs = true ->
  exists fuel,
    json.parseElements fuel depth
      (String.concat "," (map render vs) ++ String "]" rest)
    = json.Scanned (map canon vs) rest.
Proof.
  induction 1 as [|v vs Hv Hvs IH]; [contradiction|].
  intros _ depth rest Hp. simpl in Hp. apply andb_prop in Hp.
  destruct Hp as [Hpv Hpvs].
  destruct vs as [|v' vs'].
  - destruct (Hv depth (String "]" rest) Hpv) as [f Hf].
    exists (S f). cbn [map String.concat json.parseElements]. rewrite Hf.
    reflexivity.
  - destruct (IH ltac:(discriminate) depth rest Hpvs) as [f2 Hf2].
    destruct (Hv depth
                (String "," (String.concat "," (map render (v' :: vs'))
                             ++ String "]" rest)) Hpv) as [f1 Hf1].
    exists (S (Nat.max f1 f2)).
    change (map render (v :: v' :: vs'))
      with (render v :: map render (v' :: vs')).
    change (String.concat "," (render v :: map render (v' :: vs')))
      with (render v ++ "," ++ String.concat "," (map render (v' :: vs'))).
    rewrite append_assoc. cbn [append].
    cbn [json.parseElements].
    rewrite (parseValue_more f1 _ _ _ _ _ Hf1) by lia.
    cbn [json.skipSpace json.isSpace json.headIs]. 
    replace (json.isSpace ",") with false by reflexivity.
    cbn [json.headIs]. replace (Ascii.eqb "," ",") with true by reflexivity.
    simpl in Hpvs. apply andb_prop in Hpvs. destruct Hpvs as [Hpv' _].
    assert (Ho : opensValue (String.concat "," (map render (v' :: vs'))
                             ++ String "]" rest)).
    { cbn [map]. destruct (map render vs') as [|x l].
      - now apply render_opens with (depth := depth).
      - cbn [String.concat]. rewrite append_assoc.
        now apply render_opens with (depth := depth). }
    destruct Ho as (Hsp & _). rewrite Hsp.
    rewrite (parseElements_more f2 _ _ _ _ _ Hf2) by lia.
    reflexivity.
Qed.

Lemma parseMembers_step (fuel : nat) (depth : N) (key : string)
    (v : json.Value) (R : string) :
  plainText key = true -> plainValue depth v = true ->
  json.parseValue fuel depth (render v ++ R) = json.Scanned (canon v) R ->
  json.parseMembers (S fuel) depth
    (String dquote (key ++ String dquote (String ":" (render v ++ R))))
  = match json.headIs "," (json.skipSpace R),
          json.headIs "}" (json.skipSpace R) with
    | Some r5, _ =>
      match json.parseMembers fuel depth (json.skipSpace r5) with
      | json.Scanned ms r6 => json.Scanned ((key, render v, canon v) :: ms) r6
      | json.Invalid => json.Invalid
      | json.Exhausted => json.Exhausted
      end
    | None, Some r5 => json.Scanned [(key, render v, canon v)] r5
    | None, None => json.Invalid
    end.
Proof.
  intros Hk Hp Hv. cbn [json.parseMembers json.headIs].
  replace (Ascii.eqb dquote dquote) with true by reflexivity.
  rewrite (scanString_plain key _ Hk), (unquote_plain key Hk).
  cbn [json.skipSpace]. replace (json.isSpace ":") with false by reflexivity.
  cbn [json.headIs]. replace (Ascii.eqb ":" ":") with true by reflexivity.
  destruct (render_opens depth v R Hp) as (Hsp & _). rewrite Hsp, Hv.
  now rewrite prefix_of_append.
Qed.

Lemma members_read_back (ms : list (string * string * json.Value)) :
  Forall (fun m => readsBack (snd m)) ms -> ms <> [] ->
  forall depth rest,
  forallb (fun m => plainText (fst (fst m)) && plainValue depth (snd m)) ms
  = true ->
  exists fuel,
    json.parseMembers fuel depth
      (String.concat ","
         (map (fun m => inDoubleQuotes (fst (fst m)) ++ ":" ++ render (snd m))
            ms)
       ++ String "}" rest)
    = json.Scanned
        (map (fun m => (fst (fst m), render (snd m), canon (snd m))) ms) rest.
Proof.
  induction 1 as [|[[key raw] v] ms Hv Hms IH]; [contradiction|].
  intros _ depth rest Hp. cbn [forallb fst snd] in Hp.
  apply andb_prop in Hp. destruct Hp as [Hpm Hpms].
  apply andb_prop in Hpm. destruct Hpm as [Hk Hpv].
  cbn [fst snd] in Hv.
  destruct ms as [|m' ms'].
  - destruct (Hv depth (String "}" rest) Hpv) as [f Hf].
    exists (S f). cbn [map String.concat fst snd].
    unfold inDoubleQuotes. cbn [append]. rewrite !append_assoc. cbn [append].
    rewrite (parseMembers_step f depth key v _ Hk Hpv Hf).
    reflexivity.
  - destruct (IH ltac:(discriminate) depth rest Hpms) as [f2 Hf2].
    set (render1 := fun m : string * string * json.Value =>
                      inDoubleQuotes (fst (fst m)) ++ ":" ++ render (snd m))
      in *.
    destruct (Hv depth
                (String "," (String.concat "," (map render1 (m' :: ms'))
                             ++ String "}" rest)) Hpv) as [f1 Hf1].
    exists (S (Nat.max f1 f2)).
    change (map render1 ((key, raw, v) :: m' :: ms'))
      with (render1 (key, raw, v) :: map render1 (m' :: ms')).
    change (String.concat ","
              (render1 (key, raw, v) :: map render1 (m' :: ms')))
      with (render1 (key, raw, v) ++ ","
            ++ String.concat "," (map render1 (m' :: ms'))).
    unfold render1 at 1. cbn [fst snd]. unfold inDoubleQuotes at 1.
    cbn [append]. rewrite ?append_assoc. cbn [append].
    rewrite ?append_assoc. cbn [append].
    rewrite (parseMembers_step (Nat.max f1 f2) depth key v _ Hk Hpv
               (parseValue_more f1 (Nat.max f1 f2) _ _ _ _ Hf1
                  (Nat.le_max_l f1 f2))).
    cbn [json.skipSpace]. replace (json.isSpace ",") with false by reflexivity.
    cbn [json.headIs]. replace (Ascii.eqb "," ",") with true by reflexivity.
    assert (Hsp : json.skipSpace
                    (String.concat "," (map render1 (m' :: ms'))
                     ++ String "}" rest)
                  = String.concat "," (map render1 (m' :: ms'))
                    ++ String "}" rest).
    { cbn [map]. destruct (map render1 ms'); reflexivity. }
    rewrite Hsp, (parseMembers_more f2 _ _ _ _ _ Hf2) by lia.
    reflexivity.
Qed.

Lemma render_array (vs : list json.Value) (rest : string) :
  render (json.JArray vs) ++ rest
  = String "[" (String.concat "," (map render vs) ++ String "]" rest).
Proof.
  change (render (json.JArray vs))
    with ("[" ++ String.concat "," (map render vs) ++ "]").
  cbn [append]. now rewrite append_assoc.
Qed.

Lemma render_object (ms : list (string * string * json.Value))
    (rest : string) :
  render (json.JObject ms) ++ rest
  = String "{"
      (String.concat ","
         (map (fun m => inDoubleQuotes (fst (fst m)) ++ ":" ++ render (snd m))
            ms)
       ++ String "}" rest).
Proof.
  change (render (json.JObject ms))
    with ("{" ++ String.concat ","
                   (map (fun m => inDoubleQuotes (fst (fst m)) ++ ":"
                                  ++ render (snd m)) ms)
              ++ "}").
  cbn [append]. now rewrite append_assoc.
Qed.

(** Reading back what [render] writes: the parser, started on the text of
    a plain value, returns the value and the text after it. *)
Lemma render_reads_back (v : json.Value) : readsBack v.
Proof.
  induction v as [|b|literal|s|vs IH|ms IH] using Value_induction;
    intros depth rest Hp.
  - exists 1. cbn.
    change (String "n" (String "u" (String "l" (String "l" rest))))
      with ("null" ++ rest).
    now rewrite startsWith_append.
  - exists 1. destruct b; cbn.
    + change (String "t" (String "r" (String "u" (String "e" rest))))
        with ("true" ++ rest).
      now rewrite startsWith_append.
    + change (String "f" (String "a" (String "l" (String "s"
                (String "e" rest)))))
        with ("false" ++ rest).
      now rewrite startsWith_append.
  - discriminate Hp.
  - exists 1. cbn [render canon]. unfold inDoubleQuotes. cbn [append].
    rewrite append_assoc. cbn [append json.parseValue].
    replace (Ascii.eqb dquote "{") with false by reflexivity.
    replace (Ascii.eqb dquote "[") with false by reflexivity.
    replace (Ascii.eqb dquote dquote) with true by reflexivity.
    cbn [plainValue] in Hp.
    now rewrite (scanString_plain s rest Hp), (unquote_plain s Hp).
  - cbn [plainValue] in Hp. apply andb_prop in Hp. destruct Hp as [Hd Hvs].
    assert (Hdepth : (json.maxNestingDepth <? depth + 1)%N = false).
    { apply N.ltb_ge. now apply N.leb_le. }
    destruct vs as [|v vs].
    + exists 1. cbn. now rewrite Hdepth.
    + destruct (elements_read_back (v :: vs) IH ltac:(discriminate)
                  (depth + 1)%N rest Hvs) as [f Hf].
      exists (S f). rewrite render_array. cbn [canon json.parseValue].
      replace (Ascii.eqb "[" "{") with false by reflexivity.
      replace (Ascii.eqb "[" "[") with true by reflexivity.
      rewrite Hdepth.
      assert (Ho : opensValue (String.concat "," (map render (v :: vs))
                               ++ String "]" rest)).
      { cbn [forallb] in Hvs. apply andb_prop in Hvs. destruct Hvs as [Hv _].
        cbn [map]. destruct (map render vs) as [|x l].
        - now apply render_opens with (depth := (depth + 1)%N).
        - cbn [String.concat]. rewrite append_assoc.
          now apply render_opens with (depth := (depth + 1)%N). }
      destruct Ho as (Hsp & Hclose & _). now rewrite Hsp, Hclose, Hf.
  - cbn [plainValue] in Hp. apply andb_prop in Hp. destruct Hp as [Hd Hms].
    assert (Hdepth : (json.maxNestingDepth <? depth + 1)%N = false).
    { apply N.ltb_ge. now apply N.leb_le. }
    destruct ms as [|m ms].
    + exists 1. cbn. now rewrite Hdepth.
    + destruct (members_read_back (m :: ms) IH ltac:(discriminate)
                  (depth + 1)%N rest Hms) as [f Hf].
      exists (S f). rewrite render_object. cbn [canon json.parseValue].
      replace (Ascii.eqb "{" "{") with true by reflexivity.
      rewrite Hdepth.
      set (render1 := fun m : string * string * json.Value =>
                        inDoubleQuotes (fst (fst m)) ++ ":" ++ render (snd m))
        in *.
      assert (Ho : json.skipSpace
                     (String.concat "," (map render1 (m :: ms))
                      ++ String "}" rest)
                   = String.concat "," (map render1 (m :: ms))
                     ++ String "}" rest
                   /\ json.headIs "}"
                        (String.concat "," (map render1 (m :: ms))
                         ++ String "}" rest) = None).
      { cbn [map]. destruct (map render1 ms); split; reflexivity. }
      destruct Ho as (Hsp & Hclose). now rewrite Hsp, Hclose, Hf.
Qed.

(** [json.parse] reads back the text of a plain value. *)
Lemma parse_render (v : json.Value) :
  plainValue 0 v = true -> json.parse (render v) = Some (canon v).
Proof.
  intros Hp. destruct (render_reads_back v 0%N EmptyString Hp) as [f Hf].
  rewrite append_empty_r in Hf.
  apply (parse_of_parseValue f (render v) (canon v) EmptyString);
    [|reflexivity].
  destruct (render_opens 0 v EmptyString Hp) as (Hsp & _).
  rewrite append_empty_r in Hsp. now rewrite Hsp.
Qed.

(** ** Payloads and responses given as texts *)

(** Brings both sides of an equation between texts to the same bracketing. *)
Ltac texts :=
  cbn; unfold inDoubleQuotes;
  repeat (progress (rewrite ?append_assoc; cbn [append])); try reflexivity.

Lemma UnmarshalActionPayload_text (action : string) :
  plainText action = true ->
  UnmarshalActionPayload (js "{'action':'" ++ action ++ js "'}")
  = Ok {| Action := action |}.
Proof.
  intros Hp.
  assert (Ht : js "{'action':'" ++ action ++ js "'}"
               = render (json.JObject
                           [("action", EmptyString, json.JString action)])).
  { texts. }
  unfold UnmarshalActionPayload, json.Unmarshal.
  rewrite Ht, parse_render by (cbn; now rewrite Hp).
  reflexivity.
Qed.

(** X14.  An IssuesEvent whose payload is the JSON object with the one
    member action, a string of printable ASCII characters with no double
    quote and no backslash that is not empty, gets the action with its
    first letter capitalized, followed by the words for an issue and the
    repo name. *)
Theorem formatEvent_issues_action (isPrintTable : N -> bool)
    (repo action : string) :
  plainText action = true -> action <> EmptyString ->
  formatEvent isPrintTable
    (event "IssuesEvent" repo (js "{'action':'" ++ action ++ js "'}"))
  = verbCap action ++ " an issue in " ++ repo.
Proof.
  intros Hp Hne. rewrite formatEvent_issues by reflexivity.
  unfold extractAction. cbn [Payload event Repo_ Name].
  rewrite (UnmarshalActionPayload_text action Hp). cbn [Action].
  apply String.eqb_neq in Hne. now rewrite Hne.
Qed.

(** X14 at the action reopened. *)
Lemma formatEvent_issues_action_witness :
  formatEvent emptyTable
    (event "IssuesEvent" "octo/cat" (js "{'action':'reopened'}"))
  = "Reopened an issue in octo/cat".
Proof.
  apply (formatEvent_issues_action emptyTable "octo/cat" "reopened");
    [reflexivity | discriminate].
Defined.

Lemma UnmarshalPullRequestPayload_text (action : string) (merged : bool) :
  plainText action = true ->
  UnmarshalPullRequestPayload
    (js "{'action':'" ++ action ++ js "','pull_request':{'merged':"
     ++ boolText merged ++ "}}")
  = Ok {| PRAction := action; PullRequest := {| Merged := merged |} |}.
Proof.
  intros Hp.
  assert (Ht : js "{'action':'" ++ action ++ js "','pull_request':{'merged':"
               ++ boolText merged ++ "}}"
               = render (json.JObject
                           [("action", EmptyString, json.JString action);
                            ("pull_request", EmptyString,
                             json.JObject
                               [("merged", EmptyString,
                                 json.JBool merged)])])).
  { destruct merged; texts. }
  unfold UnmarshalPullRequestPayload, json.Unmarshal.
  rewrite Ht, parse_render by (cbn; now rewrite Hp).
  reflexivity.
Qed.

(** X15.  A PullRequestEvent whose payload has a plain action that is not
    empty and a pull request with a merged flag gets Merged when the
    action is closed and the flag is true, and the capitalized action
    otherwise, followed by the words for a pull request and the repo
    name. *)
Theorem formatEvent_pull_request_action (isPrintTable : N -> bool)
    (repo action : string) (merged : bool) :
  plainText action = true -> action <> EmptyString ->
  formatEvent isPrintTable
    (event "PullRequestEvent" repo
       (js "{'action':'" ++ action ++ js "','pull_request':{'merged':"
        ++ boolText merged ++ "}}"))
  = (if (action =? "closed") && merged then "Merged"
     else verbCap action) ++ " a pull request in " ++ repo.
Proof.
  intros Hp Hne. rewrite formatEvent_pull_request by reflexivity.
  cbn [Payload event Repo_ Name].
  rewrite (UnmarshalPullRequestPayload_text action merged Hp).
  cbn [PRAction PullRequest Merged].
  destruct ((action =? "closed") && merged); [reflexivity|].
  apply String.eqb_neq in Hne. now rewrite Hne.
Qed.

(** X15 at a closed pull request, merged and not merged. *)
Lemma formatEvent_pull_request_action_witness :
  formatEvent emptyTable
    (event "PullRequestEvent" "octo/cat"
       (js "{'action':'closed','pull_request':{'merged':true}}"))
  = "Merged a pull request in octo/cat"
  /\ formatEvent emptyTable
       (event "PullRequestEvent" "octo/cat"
          (js "{'action':'closed','pull_request':{'merged':false}}"))
     = "Closed a pull request in octo/cat".
Proof.
  split.
  - apply (formatEvent_pull_request_action emptyTable "octo/cat" "closed"
             true); [reflexivity | discriminate].
  - apply (formatEvent_pull_request_action emptyTable "octo/cat" "closed"
             false); [reflexivity | discriminate].
Defined.

Lemma UnmarshalCreatePayload_text (refType ref : string) :
  plainText refType = true -> plainText ref = true ->
  UnmarshalCreatePayload
    (js "{'ref_type':'" ++ refType ++ js "','ref':'" ++ ref ++ js "'}")
  = Ok {| RefType := refType; Ref := ref |}.
Proof.
  intros Ht Hr.
  assert (H : js "{'ref_type':'" ++ refType ++ js "','ref':'" ++ ref
              ++ js "'}"
              = render (json.JObject
                          [("ref_type", EmptyString, json.JString refType);
                           ("ref", EmptyString, json.JString ref)])).
  { texts. }
  unfold UnmarshalCreatePayload, json.Unmarshal.
  rewrite H, parse_render by (cbn; now rewrite Ht, Hr).
  reflexivity.
Qed.

(** X16.  A CreateEvent whose payload has a plain ref type other than
    repository and a plain ref that is not empty gets the ref type and
    then the ref between double quotes, followed by the repo name. *)
Theorem formatEvent_create_ref (isPrintTable : N -> bool)
    (repo refType ref : string) :
  plainText refType = true -> plainText ref = true ->
  refType <> "repository" -> ref <> EmptyString ->
  formatEvent isPrintTable
    (event "CreateEvent" repo
       (js "{'ref_type':'" ++ refType ++ js "','ref':'" ++ ref ++ js "'}"))
  = "Created " ++ refType ++ js " '" ++ ref ++ js "' in " ++ repo.
Proof.
  intros Ht Hr Hnr Hne. rewrite formatEvent_create by reflexivity.
  cbn [Payload event Repo_ Name].
  rewrite (UnmarshalCreatePayload_text refType ref Ht Hr).
  cbn [RefType Ref].
  apply String.eqb_neq in Hnr, Hne. rewrite Hnr, Hne. cbn [negb].
  rewrite (Quote_plainText isPrintTable ref Hr).
  unfold inDoubleQuotes. texts.
Qed.

(** X16 at a branch. *)
Lemma formatEvent_create_ref_witness :
  formatEvent emptyTable
    (event "CreateEvent" "octo/cat"
       (js "{'ref_type':'branch','ref':'fix/typo'}"))
  = js "Created branch 'fix/typo' in octo/cat".
Proof.
  apply (formatEvent_create_ref emptyTable "octo/cat" "branch" "fix/typo");
    (reflexivity || discriminate).
Defined.

Lemma decodeElems_map {A T : Type} (elem : json.Value -> result json.Error T)
    (value : A -> json.Value) (item : A -> T) (l : list A) :
  (forall a, In a l -> elem (value a) = Ok (item a)) ->
  json.decodeElems elem (map value l) = Ok (map item l).
Proof.
  induction l as [|a l IH]; intros H; [reflexivity|].
  cbn [map json.decodeElems]. rewrite (H a (or_introl eq_refl)). cbn [bind].
  rewrite IH; [reflexivity|]. intros b Hb. apply H. now right.
Qed.

Lemma forallb_map_impl {A B : Type} (f : A -> bool) (g : B -> bool)
    (h : A -> B) (l : list A) :
  (forall a, f a = true -> g (h a) = true) ->
  forallb f l = true -> forallb g (map h l) = true.
Proof.
  intros H. induction l as [|a l IH]; [reflexivity|].
  cbn [forallb map]. intros Hl. apply andb_prop in Hl.
  destruct Hl as [Ha Hl]. now rewrite (H a Ha), (IH Hl).
Qed.

Lemma concat_map_ext {A : Type} (f g : A -> string) (l : list A) :
  (forall a, In a l -> f a = g a) ->
  String.concat "," (map f l) = String.concat "," (map g l).
Proof.
  intros H. f_equal. apply map_ext_in. exact H.
Qed.

Lemma UnmarshalPushPayload_text (shas : list string) :
  forallb plainText shas = true ->
  UnmarshalPushPayload
    (js "{'commits':["
     ++ String.concat ","
          (map (fun sha => js "{'sha':'" ++ sha ++ js "'}") shas)
     ++ "]}")
  = Ok {| Commits := map (fun sha => {| SHA := sha |}) shas |}.
Proof.
  intros Hp.
  set (commit := fun sha : string =>
                   json.JObject [("sha", EmptyString, json.JString sha)]).
  assert (Ht : js "{'commits':["
               ++ String.concat ","
                    (map (fun sha => js "{'sha':'" ++ sha ++ js "'}") shas)
               ++ "]}"
               = render (json.JObject
                           [("commits", EmptyString,
                             json.JArray (map commit shas))])).
  { cbn [render map fst snd String.concat].
    rewrite map_map.
    rewrite (concat_map_ext (fun sha => render (commit sha))
               (fun sha => js "{'sha':'" ++ sha ++ js "'}")).
    - texts.
    - intros sha _. texts. }
  unfold UnmarshalPushPayload, json.Unmarshal.
  rewrite Ht, parse_render.
  - cbn [canon map fst snd]. rewrite map_map.
    unfold decodePushPayload, json.decodeStruct.
    cbn [json.decodeMembers].
    replace (json.lookupField ["commits"] "commits") with (Some 0)
      by reflexivity.
    cbn [json.decodeSlice].
    rewrite (decodeElems_map _ (fun sha => canon (commit sha))
               (fun sha => {| SHA := sha |})); [reflexivity|].
    intros sha _. reflexivity.
  - cbn [plainValue forallb fst snd].
    replace (plainText "commits") with true by reflexivity.
    replace ((0 + 1 <=? json.maxNestingDepth)%N) with true by reflexivity.
    replace ((0 + 1 + 1 <=? json.maxNestingDepth)%N) with true
      by reflexivity.
    cbn [andb]. rewrite andb_true_r.
    revert Hp. apply forallb_map_impl.
    intros sha Hsha. cbn. now rewrite Hsha.
Qed.

(** X17.  A PushEvent whose payload is an object with a commits array of
    objects, one for each of n plain SHAs, gets the line for one commit
    when n is 1 and the line with the decimal count n otherwise, the
    count 0 for an empty array included. *)
Theorem formatEvent_push_count (isPrintTable : N -> bool) (repo : string)
    (shas : list string) :
  forallb plainText shas = true ->
  formatEvent isPrintTable
    (event "PushEvent" repo
       (js "{'commits':["
        ++ String.concat ","
             (map (fun sha => js "{'sha':'" ++ sha ++ js "'}") shas)
        ++ "]}"))
  = if Nat.eqb (List.length shas) 1 then "Pushed 1 commit to " ++ repo
    else "Pushed " ++ strconv.Itoa (List.length shas) ++ " commits to "
         ++ repo.
Proof.
  intros Hp. rewrite formatEvent_push by reflexivity.
  cbn [Payload event Repo_ Name].
  rewrite (UnmarshalPushPayload_text shas Hp). cbn [Commits].
  now rewrite length_map.
Qed.

(** X17 at three commits and at none. *)
Lemma formatEvent_push_count_witness :
  formatEvent emptyTable
    (event "PushEvent" "octo/cat"
       (js "{'commits':[{'sha':'1f'},{'sha':'2e'},{'sha':'3d'}]}"))
  = "Pushed 3 commits to octo/cat"
  /\ formatEvent emptyTable
       (event "PushEvent" "octo/cat" (js "{'commits':[]}"))
     = "Pushed 0 commits to octo/cat".
Proof.
  split.
  - now apply (formatEvent_push_count emptyTable "octo/cat"
                 ["1f"; "2e"; "3d"]).
  - now apply (formatEvent_push_count emptyTable "octo/cat" []).
Defined.

Lemma UnmarshalEvents_text (items : list (string * string * string)) :
  forallb plainItem items = true ->
  UnmarshalEvents ("[" ++ String.concat "," (map eventText items) ++ "]")
  = Ok (map eventOf items).
Proof.
  intros Hp.
  set (value := fun item : string * string * string =>
         json.JObject
           [("type", EmptyString, json.JString (fst (fst item)));
            ("repo", EmptyString,
             json.JObject
               [("name", EmptyString, json.JString (snd (fst item)))]);
            ("payload", EmptyString,
             json.JObject
               [("action", EmptyString, json.JString (snd item))])]).
  assert (Ht : "[" ++ String.concat "," (map eventText items) ++ "]"
               = render (json.JArray (map value items))).
  { cbn [render]. rewrite map_map.
    rewrite (concat_map_ext (fun item => render (value item)) eventText);
      [reflexivity|].
    intros [[type repo] action] _. unfold eventText. texts. }
  unfold UnmarshalEvents, json.Unmarshal.
  rewrite Ht, parse_render.
  - cbn [canon]. rewrite map_map. unfold decodeEvents.
    cbn [json.decodeSlice].
    apply decodeElems_map.
    intros [[type repo] action] _. unfold eventOf, event. cbn.
    do 2 f_equal. texts.
  - cbn [plainValue].
    replace ((0 + 1 <=? json.maxNestingDepth)%N) with true by reflexivity.
    cbn [andb]. revert Hp. apply forallb_map_impl.
    intros [[type repo] action]. unfold plainItem. cbn.
    intros H. apply andb_prop in H. destruct H as [H Ha].
    apply andb_prop in H. destruct H as [Ht' Hr].
    now rewrite Ht', Hr, Ha.
Qed.

(** X18.  From a response with status 200 whose body is a JSON array of
    event objects, each with a type, a repo with a name, and a payload
    object with an action, all plain, [fetchEvents] returns one event for
    each object, in order, with that type and repo name, and with the
    text of the payload object as it stands in the body. *)
Theorem fetchEvents_decodes (w : World) (id : string) (res : Response)
    (items : list (string * string * string)) :
  forallb plainItem items = true ->
  rejectURL w (eventsURL id) = None ->
  Do w 10 (eventsRequest (eventsURL id)) = Ok res ->
  StatusCode res = 200%Z ->
  Body res = Ok ("[" ++ String.concat "," (map eventText items) ++ "]") ->
  fetchEvents w id = Ok (map eventOf items).
Proof.
  intros Hp Hurl Hdo Hs Hb. unfold fetchEvents.
  rewrite Hurl, Hdo, Hb, Hs. cbn [Z.eqb Pos.eqb].
  now rewrite (UnmarshalEvents_text items Hp).
Qed.

(** X18 at a body with an issue event and a watch event. *)
Lemma fetchEvents_decodes_witness :
  fetchEvents
    (answering 200 "200 OK"
       ("[" ++ eventText ("IssuesEvent", "a/b", "opened") ++ ","
        ++ eventText ("WatchEvent", "c/d", "started") ++ "]"))
    "octocat"
  = Ok [event "IssuesEvent" "a/b" (js "{'action':'opened'}");
        event "WatchEvent" "c/d" (js "{'action':'started'}")].
Proof.
  now apply (fetchEvents_decodes _ "octocat"
               {| StatusCode := 200; Status := "200 OK";
                  Body := Ok ("[" ++ eventText ("IssuesEvent", "a/b", "opened")
                              ++ ","
                              ++ eventText ("WatchEvent", "c/d", "started")
                              ++ "]") |}
               [("IssuesEvent", "a/b", "opened");
                ("WatchEvent", "c/d", "started")]).
Defined.

Lemma bulletLines_cons (line : string) (lines : list string) :
  line <> EmptyString ->
  bulletLines (line :: lines) = "- " ++ line ++ newline ++ bulletLines lines.
Proof.
  intros H. unfold bulletLines. cbn [filter].
  apply String.eqb_neq in H. now rewrite H.
Qed.

Lemma stars_lines (isPrintTable : N -> bool) (repos : list string) :
  bulletLines
    (map (formatEvent isPrintTable)
       (map eventOf
          (map (fun repo => ("WatchEvent", repo, "started")) repos)))
  = fold_right (fun repo out => "- Starred " ++ repo ++ newline ++ out)
      EmptyString repos.
Proof.
  induction repos as [|repo repos IH]; [reflexivity|].
  cbn [map]. rewrite formatEvent_watch by reflexivity.
  rewrite bulletLines_cons by discriminate. rewrite IH. reflexivity.
Qed.

(** X19.  A whole run: when the response for the user has status 200 and
    its body is an array of watch events, one for each of the plain repo
    names given, the program writes one line with a hyphen and the words
    Starred and the repo name for each, in order, and exits with status
    0; for no repo names it writes that there is no recent activity. *)
Theorem main_prints_stars (isPrintTable : N -> bool) (w : World)
    (prog user : string) (res : Response) (repos : list string) :
  forallb plainText repos = true ->
  rejectURL w (eventsURL user) = None ->
  Do w 10 (eventsRequest (eventsURL user)) = Ok res ->
  StatusCode res = 200%Z ->
  Body res
  = Ok ("["
        ++ String.concat ","
             (map (fun repo => eventText ("WatchEvent", repo, "started"))
                repos)
        ++ "]") ->
  main isPrintTable w [prog; user]
  = {| stdout := match repos with
                 | [] => "no recent activity" ++ newline
                 | _ :: _ =>
                   fold_right
                     (fun repo out => "- Starred " ++ repo ++ newline ++ out)
                     EmptyString repos
                 end;
       stderr := []; exitCode := 0 |}.
Proof.
  intros Hp Hurl Hdo Hs Hb.
  assert (Hf : fetchEvents w user
               = Ok (map eventOf
                       (map (fun repo => ("WatchEvent", repo, "started"))
                          repos))).
  { unfold fetchEvents. rewrite Hurl, Hdo, Hb, Hs. cbn [Z.eqb Pos.eqb].
    rewrite <- (map_map (fun repo => ("WatchEvent", repo, "started"))
                  eventText).
    rewrite UnmarshalEvents_text; [reflexivity|].
    revert Hp. apply forallb_map_impl.
    intros repo H. unfold plainItem. cbn. now rewrite H. }
  rewrite (main_fetched isPrintTable w prog user _ Hf).
  destruct repos as [|repo repos]; [reflexivity|].
  rewrite <- (stars_lines isPrintTable (repo :: repos)). reflexivity.
Qed.

(** X19 at two starred repos. *)
Lemma main_prints_stars_witness :
  main emptyTable
    (answering 200 "200 OK"
       ("[" ++ eventText ("WatchEvent", "a/b", "started") ++ ","
        ++ eventText ("WatchEvent", "c/d", "started") ++ "]"))
    ["github-activity"; "octocat"]
  = {| stdout := "- Starred a/b" ++ newline ++ "- Starred c/d" ++ newline;
       stderr := []; exitCode := 0 |}.
Proof.
  now apply (main_prints_stars emptyTable _ "github-activity" "octocat"
               {| StatusCode := 200; Status := "200 OK";
                  Body := Ok ("[" ++ eventText ("WatchEvent", "a/b", "started")
                              ++ ","
                              ++ eventText ("WatchEvent", "c/d", "started")
                              ++ "]") |}
               ["a/b"; "c/d"]).
Defined.

(** ** More on fetchEvents and main *)

Lemma append_cancel_r (a b t : string) : a ++ t = b ++ t -> a = b.
Proof.
  revert b. induction a as [|c a IH]; intros [|d b] H.
  - reflexivity.
  - exfalso. apply (f_equal String.length) in H.
    simpl in H. rewrite length_append in H. lia.
  - exfalso. apply (f_equal String.length) in H.
    simpl in H. rewrite length_append in H. lia.
  - simpl in H. injection H as -> H. now rewrite (IH b H).
Qed.

(** X20.  The URL requested determines the identifier: two identifiers
    with the same events URL are the same. *)
Theorem eventsURL_injective (id1 id2 : string) :
  eventsURL id1 = eventsURL id2 -> id1 = id2.
Proof.
  unfold eventsURL. cbn [append]. intros H. injection H as H.
  now apply append_cancel_r in H.
Qed.

(** X20 at an identifier and the same identifier with a slash after it,
    whose URLs differ. *)
Lemma eventsURL_injective_witness :
  eventsURL "octocat" <> eventsURL "octocat/"
  /\ prefix_of 7 "octocat/" = "octocat".
Proof.
  split.
  - intros H. apply eventsURL_injective in H. discriminate H.
  - apply eventsURL_injective. reflexivity.
Defined.

Lemma bulletLines_app (l1 l2 : list string) :
  bulletLines (l1 ++ l2) = bulletLines l1 ++ bulletLines l2.
Proof.
  unfold bulletLines. induction l1 as [|line l1 IH]; [reflexivity|].
  cbn [List.app filter]. destruct (negb (line =? EmptyString)).
  - cbn [fold_right]. rewrite IH. now rewrite !append_assoc.
  - exact IH.
Qed.

(** X21.  The line of an event does not depend on the events around it:
    the output for a fetched sequence made of two sequences that are not
    empty is the output for the first followed by the output for the
    second. *)
Theorem main_output_concatenates (isPrintTable : N -> bool)
    (w w1 w2 : World) (prog user : string) (events1 events2 : list Event) :
  fetchEvents w1 user = Ok events1 -> fetchEvents w2 user = Ok events2 ->
  fetchEvents w user = Ok (events1 ++ events2)%list ->
  events1 <> [] -> events2 <> [] ->
  stdout (main isPrintTable w [prog; user])
  = stdout (main isPrintTable w1 [prog; user])
    ++ stdout (main isPrintTable w2 [prog; user]).
Proof.
  intros H1 H2 H Hne1 Hne2.
  rewrite (main_fetched isPrintTable w prog user _ H),
    (main_fetched isPrintTable w1 prog user _ H1),
    (main_fetched isPrintTable w2 prog user _ H2).
  destruct events1 as [|e1 events1]; [contradiction|].
  destruct events2 as [|e2 events2]; [contradiction|].
  cbn [stdout List.app]. rewrite <- bulletLines_app, <- map_app.
  reflexivity.
Qed.

(** X21 at a fork event followed by a watch event. *)
Lemma main_output_concatenates_witness :
  stdout (main emptyTable
            (answering 200 "200 OK"
               (js "[{'type':'ForkEvent'}, {'type':'WatchEvent'}]"))
            ["github-activity"; "octocat"])
  = stdout (main emptyTable
              (answering 200 "200 OK" (js "[{'type':'ForkEvent'}]"))
              ["github-activity"; "octocat"])
    ++ stdout (main emptyTable
                 (answering 200 "200 OK" (js "[{'type':'WatchEvent'}]"))
                 ["github-activity"; "octocat"]).
Proof.
  apply (main_output_concatenates emptyTable _ _ _ "github-activity"
           "octocat" [event "ForkEvent" EmptyString EmptyString]
           [event "WatchEvent" EmptyString EmptyString]);
    (reflexivity || discriminate).
Defined.

(** ** Decoding by struct tags *)

Lemma lookupField_action (key : string) (i : nat) :
  json.lookupField ["action"] key = Some i ->
  i = 0 /\ json.foldName key = "ACTION".
Proof.
  unfold json.lookupField. cbn [json.indexOf].
  destruct (String.eqb_spec key "action") as [->|_].
  - intros [= <-]. now split.
  - destruct (String.eqb_spec (json.foldName "action") (json.foldName key))
      as [Heq|_]; [|discriminate].
    intros [= <-]. split; [reflexivity|]. now rewrite <- Heq.
Qed.

Lemma decodeMembers_action (ms : list (string * string * json.Value))
    (cur p : ActionPayload) :
  json.decodeMembers ["action"]
    (fun _ _ v p => s <- json.decodeString v (Action p) ;; Ok {| Action := s |})
    ms cur = Ok p ->
  Action p = Action cur
  \/ exists key raw,
       In (key, raw, json.JString (Action p)) ms
       /\ json.foldName key = "ACTION".
Proof.
  revert cur. induction ms as [|[[key raw] v] ms IH]; intros cur.
  - intros [= <-]. now left.
  - cbn [json.decodeMembers].
    destruct (json.lookupField ["action"] key) as [i|] eqn:Hl.
    + apply lookupField_action in Hl. destruct Hl as [_ Hfold].
      destruct v as [|b|literal|s|vs|ms']; cbn [json.decodeString bind];
        try discriminate.
      * intros H. destruct (IH _ H) as [Heq|(k & r & Hin & Hk)].
        -- now left.
        -- right. exists k, r. split; [now right | assumption].
      * intros H. destruct (IH _ H) as [Heq|(k & r & Hin & Hk)].
        -- right. exists key, raw. cbn [Action] in Heq. rewrite Heq.
           split; [now left | assumption].
        -- right. exists k, r. split; [now right | assumption].
    + intros H. destruct (IH _ H) as [Heq|(k & r & Hin & Hk)].
      * now left.
      * right. exists k, r. split; [now right | assumption].
Qed.

(** X22.  [extractAction] makes no action up: when its result is not
    empty, the payload is a JSON object that has a member whose key is
    action, up to case, and whose value is the string returned.  For any
    other payload (not JSON, not an object, no such member, a member that
    is null) the result is empty. *)
Theorem extractAction_from_member (payload : string) :
  extractAction payload <> EmptyString ->
  exists ms key raw,
    json.parse payload = Some (json.JObject ms)
    /\ In (key, raw, json.JString (extractAction payload)) ms
    /\ json.foldName key = "ACTION".
Proof.
  unfold extractAction, UnmarshalActionPayload, json.Unmarshal.
  destruct (json.parse payload) as [v|]; [|now intros H].
  destruct v as [|b|literal|s|vs|ms]; cbn; try (now intros H).
  destruct (json.decodeMembers _ _ ms _) as [p|err] eqn:Hd; [|now intros H].
  intros Hne. apply decodeMembers_action in Hd.
  destruct Hd as [Heq|(key & raw & Hin & Hk)].
  - now contradiction Hne.
  - now exists ms, key, raw.
Qed.

(** X22 at a payload whose key is spelled with a capital letter. *)
Lemma extractAction_from_member_witness :
  exists ms key raw,
    json.parse (js "{'id':7,'Action':'opened'}") = Some (json.JObject ms)
    /\ In (key, raw,
           json.JString (extractAction (js "{'id':7,'Action':'opened'}"))) ms
    /\ json.foldName key = "ACTION".
Proof.
  apply extractAction_from_member. vm_compute. discriminate.
Defined.

(** X23.  A body that decodes as events is null, and then there are no
    events, or a JSON array, and then there is one event for each of its
    elements. *)
Theorem UnmarshalEvents_one_per_element (body : string)
    (events : list Event) :
  UnmarshalEvents body = Ok events ->
  (json.parse body = Some json.JNull /\ events = [])
  \/ exists es, json.parse body = Some (json.JArray es)
                /\ List.length events = List.length es.
Proof.
  unfold UnmarshalEvents, json.Unmarshal.
  destruct (json.parse body) as [v|]; [|discriminate].
  destruct v as [|b|literal|s|vs|ms]; cbn; try discriminate.
  - intros [= <-]. now left.
  - intros H. right. exists vs. split; [reflexivity|].
    now apply decodeElems_length in H.
Qed.

(** X23 at an array of an object with a type, an empty object and null. *)
Lemma UnmarshalEvents_one_per_element_witness :
  (json.parse (js "[{'type':'ForkEvent'}, {}, null]") = Some json.JNull
   /\ [event "ForkEvent" EmptyString EmptyString; zeroEvent; zeroEvent] = [])
  \/ exists es,
       json.parse (js "[{'type':'ForkEvent'}, {}, null]")
       = Some (json.JArray es)
       /\ List.length
            [event "ForkEvent" EmptyString EmptyString; zeroEvent; zeroEvent]
          = List.length es.
Proof. now apply UnmarshalEvents_one_per_element. Defined.

Lemma decodeMembers_skip {T : Type} (names : list string)
    (store : nat -> string -> json.Value -> T -> result json.Error T)
    (ms1 ms2 : list (string * string * json.Value)) (key raw : string)
    (v : json.Value) (cur : T) :
  json.lookupField names key = None ->
  json.decodeMembers names store (ms1 ++ (key, raw, v) :: ms2) cur
  = json.decodeMembers names store (ms1 ++ ms2) cur.
Proof.
  intros Hk. revert cur.
  induction ms1 as [|[[k r] x] ms1 IH]; intros cur.
  - cbn [List.app json.decodeMembers]. now rewrite Hk.
  - cbn [List.app json.decodeMembers].
    destruct (json.lookupField names k); [|apply IH].
    destruct (store _ r x cur); cbn [bind]; [apply IH | reflexivity].
Qed.

(** X24.  A member of an event object whose key selects none of the
    fields type, repo and payload is skipped, whatever its value is: the
    object decodes as it does without that member. *)
Theorem decodeEvent_ignores_unknown
    (ms1 ms2 : list (string * string * json.Value)) (key raw : string)
    (v : json.Value) (cur : Event) :
  json.lookupField ["type"; "repo"; "payload"] key = None ->
  decodeEvent (json.JObject (ms1 ++ (key, raw, v) :: ms2)) cur
  = decodeEvent (json.JObject (ms1 ++ ms2)) cur.
Proof.
  intros Hk. unfold decodeEvent, json.decodeStruct.
  now apply decodeMembers_skip.
Qed.

(** X24 at an actor member between the type and the repo. *)
Lemma decodeEvent_ignores_unknown_witness :
  decodeEvent
    (json.JObject
       ([("type", js "'ForkEvent'", json.JString "ForkEvent")]
        ++ ("actor", js "{'id':[1]}",
            json.JObject [("id", "[1]", json.JArray [json.JNumber "1"])])
        :: [("repo", js "{'name':'a/b'}",
             json.JObject [("name", js "'a/b'", json.JString "a/b")])]))
    zeroEvent
  = decodeEvent
      (json.JObject
         ([("type", js "'ForkEvent'", json.JString "ForkEvent")]
          ++ [("repo", js "{'name':'a/b'}",
               json.JObject [("name", js "'a/b'", json.JString "a/b")])]))
      zeroEvent.
Proof. now apply decodeEvent_ignores_unknown. Defined.

(** The members after which the payload of an event is as before: the
    ones that do not select the payload field. *)
Lemma decodeEvent_keeps_payload (ms : list (string * string * json.Value))
    (cur e : Event) :
  json.noMember ["payload"] ms = true ->
  decodeEvent (json.JObject ms) cur = Ok e -> Payload e = Payload cur.
Proof.
  unfold decodeEvent, json.decodeStruct. revert cur.
  induction ms as [|[[k r] x] ms IH]; intros cur Hn.
  - now intros [= <-].
  - cbn [json.noMember forallb fst] in Hn. apply andb_prop in Hn.
    destruct Hn as [Hk Hms]. cbn [json.decodeMembers].
    destruct (json.lookupField ["type"; "repo"; "payload"] k) as [i|] eqn:Hl;
      [|now apply IH].
    destruct i as [|[|i]].
    + destruct (json.decodeString x (Type_ cur)) as [s|err]; cbn [bind];
        [|discriminate].
      intros H. now rewrite (IH _ Hms H).
    + destruct (decodeRepo x (Repo_ cur)) as [s|err]; cbn [bind];
        [|discriminate].
      intros H. now rewrite (IH _ Hms H).
    + exfalso. revert Hl Hk. unfold json.lookupField. cbn [json.indexOf].
      destruct (String.eqb_spec k "type"); [discriminate|].
      destruct (String.eqb_spec k "repo"); [discriminate|].
      destruct (String.eqb_spec k "payload") as [->|_]; [discriminate|].
      destruct (json.foldName "type" =? json.foldName k); [discriminate|].
      destruct (json.foldName "repo" =? json.foldName k); [discriminate|].
      destruct (json.foldName "payload" =? json.foldName k); discriminate.
Qed.

Lemma decodeMembers_app {T : Type} (names : list string)
    (store : nat -> string -> json.Value -> T -> result json.Error T)
    (ms1 ms2 : list (string * string * json.Value)) (cur : T) :
  json.decodeMembers names store (ms1 ++ ms2) cur
  = (mid <- json.decodeMembers names store ms1 cur ;;
     json.decodeMembers names store ms2 mid).
Proof.
  revert cur. induction ms1 as [|[[k r] x] ms1 IH]; intros cur;
    [reflexivity|].
  cbn [List.app json.decodeMembers].
  destruct (json.lookupField names k); [|apply IH].
  destruct (store _ r x cur); cbn [bind]; [apply IH | reflexivity].
Qed.

(** X25.  The payload of a decoded event is the text of the last member
    that selects the payload field, as it stands in the input: the value
    is not looked at, so a payload of any JSON kind is accepted here. *)
Theorem decodeEvent_payload_verbatim
    (ms1 ms2 : list (string * string * json.Value)) (key raw : string)
    (v : json.Value) (cur e : Event) :
  json.lookupField ["type"; "repo"; "payload"] key = Some 2 ->
  json.noMember ["payload"] ms2 = true ->
  decodeEvent (json.JObject (ms1 ++ (key, raw, v) :: ms2)) cur = Ok e ->
  Payload e = raw.
Proof.
  intros Hk Hn. unfold decodeEvent, json.decodeStruct.
  rewrite decodeMembers_app.
  destruct (json.decodeMembers _ _ ms1 cur) as [mid|err]; cbn [bind];
    [|discriminate].
  cbn [json.decodeMembers]. rewrite Hk. cbn [bind].
  intros H.
  now rewrite (decodeEvent_keeps_payload ms2 _ e Hn H).
Qed.

(** X25 at a payload that is a number, under a key spelled with a capital
    letter, followed by another member. *)
Lemma decodeEvent_payload_verbatim_witness :
  decodeEvent
    (json.JObject
       ([("type", js "'PushEvent'", json.JString "PushEvent")]
        ++ ("Payload", "7.50", json.JNumber "7.50")
        :: [("public", "true", json.JBool true)]))
    zeroEvent
  = Ok (event "PushEvent" EmptyString "7.50")
  /\ Payload (event "PushEvent" EmptyString "7.50") = "7.50".
Proof.
  split; [reflexivity|].
  now apply (decodeEvent_payload_verbatim
               [("type", js "'PushEvent'", json.JString "PushEvent")]
               [("public", "true", json.JBool true)]
               "Payload" "7.50" (json.JNumber "7.50") zeroEvent
               (event "PushEvent" EmptyString "7.50")).
Defined.

(** ** One element that is not an event *)

Lemma decodeString_error (v : json.Value) (cur : string) (err : json.Error) :
  json.decodeString v cur = Err err -> err = json.UnmarshalTypeError.
Proof. destruct v; cbn; congruence. Qed.

Lemma decodeMembers_error {T : Type} (names : list string)
    (store : nat -> string -> json.Value -> T -> result json.Error T)
    (ms : list (string * string * json.Value)) (cur : T) (err : json.Error) :
  (forall i raw v x e,
     store i raw v x = Err e -> e = json.UnmarshalTypeError) ->
  json.decodeMembers names store ms cur = Err err ->
  err = json.UnmarshalTypeError.
Proof.
  intros Hs. revert cur. induction ms as [|[[k r] x] ms IH]; intros cur.
  - discriminate.
  - cbn [json.decodeMembers].
    destruct (json.lookupField names k) as [i|]; [|apply IH].
    destruct (store i r x cur) as [y|e] eqn:E; cbn [bind]; [apply IH|].
    intros [= <-]. now apply Hs in E.
Qed.

Lemma decodeStruct_error {T : Type} (names : list string)
    (store : nat -> string -> json.Value -> T -> result json.Error T)
    (v : json.Value) (cur : T) (err : json.Error) :
  (forall i raw v x e,
     store i raw v x = Err e -> e = json.UnmarshalTypeError) ->
  json.decodeStruct names store v cur = Err err ->
  err = json.UnmarshalTypeError.
Proof.
  intros Hs. destruct v; cbn [json.decodeStruct]; try congruence.
  now apply decodeMembers_error.
Qed.

Lemma decodeEvent_error (v : json.Value) (cur : Event) (err : json.Error) :
  decodeEvent v cur = Err err -> err = json.UnmarshalTypeError.
Proof.
  unfold decodeEvent. apply decodeStruct_error.
  intros [|[|i]] raw x e e'.
  - destruct (json.decodeString x (Type_ e)) eqn:E; cbn [bind];
      [discriminate|].
    intros [= <-]. now apply decodeString_error in E.
  - destruct (decodeRepo x (Repo_ e)) eqn:E; cbn [bind]; [discriminate|].
    intros [= <-]. revert E. unfold decodeRepo. apply decodeStruct_error.
    intros _ _ y r e''.
    destruct (json.decodeString y (Name r)) eqn:E; cbn [bind];
      [discriminate|].
    intros [= <-]. now apply decodeString_error in E.
  - discriminate.
Qed.

Lemma decodeElems_error {T : Type} (elem : json.Value -> result json.Error T)
    (es : list json.Value) (v : json.Value) (err : json.Error) :
  (forall x e, elem x = Err e -> e = json.UnmarshalTypeError) ->
  In v es -> elem v = Err err ->
  json.decodeElems elem es = Err json.UnmarshalTypeError.
Proof.
  intros He. induction es as [|x es IH]; [contradiction|].
  intros Hin Hv. cbn [json.decodeElems].
  destruct (elem x) as [y|e] eqn:E; cbn [bind].
  - destruct Hin as [->|Hin]; [congruence|].
    now rewrite (IH Hin Hv).
  - now rewrite (He x e E).
Qed.

(** X26.  Decoding the body is all or nothing: when the response has
    status 200 and its body is a JSON array one of whose elements does
    not decode as an event (it is not an object, or its type, its repo or
    the name of its repo has the wrong kind), [fetchEvents] returns the
    invalid JSON error and no event at all. *)
Theorem fetchEvents_one_bad_element (w : World) (id : string)
    (res : Response) (body : string) (es : list json.Value)
    (v : json.Value) (err : json.Error) :
  rejectURL w (eventsURL id) = None ->
  Do w 10 (eventsRequest (eventsURL id)) = Ok res ->
  Body res = Ok body -> StatusCode res = 200%Z ->
  json.parse body = Some (json.JArray es) ->
  In v es -> decodeEvent v zeroEvent = Err err ->
  fetchEvents w id
  = Err (wrapError "invalid json " (jsonError json.UnmarshalTypeError)).
Proof.
  intros Hurl Hdo Hb Hs Hp Hin Hv. unfold fetchEvents.
  rewrite Hurl, Hdo, Hb, Hs. cbn [Z.eqb Pos.eqb].
  unfold UnmarshalEvents, json.Unmarshal. rewrite Hp.
  unfold decodeEvents. cbn [json.decodeSlice].
  rewrite (decodeElems_error _ es v err); [reflexivity | | assumption..].
  intros x e. apply decodeEvent_error.
Qed.

(** X26 at an array whose second element has a string as its repo. *)
Lemma fetchEvents_one_bad_element_witness :
  fetchEvents
    (answering 200 "200 OK" (js "[{'type':'ForkEvent'},{'repo':'a/b'}]"))
    "octocat"
  = Err (wrapError "invalid json " (jsonError json.UnmarshalTypeError)).
Proof.
  apply (fetchEvents_one_bad_element _ "octocat"
           {| StatusCode := 200; Status := "200 OK";
              Body := Ok (js "[{'type':'ForkEvent'},{'repo':'a/b'}]") |}
           (js "[{'type':'ForkEvent'},{'repo':'a/b'}]")
           [json.JObject
              [("type", js "'ForkEvent'", json.JString "ForkEvent")];
            json.JObject [("repo", js "'a/b'", json.JString "a/b")]]
           (json.JObject [("repo", js "'a/b'", json.JString "a/b")])
           json.UnmarshalTypeError);
    try reflexivity.
  right. now left.
Defined.

(** ** Quoting printable ASCII *)

Lemma quoteLoop_printable (isPrintTable : N -> bool) (c : ascii)
    (t : string) :
  between 0x20 0x7E c = true ->
  strconv.quoteLoop isPrintTable 0 (String c t)
  = (if Ascii.eqb c dquote || Ascii.eqb c backslash
     then String backslash (String c EmptyString)
     else String c EmptyString)
    ++ strconv.quoteLoop isPrintTable 0 t.
Proof.
  intros H.
  destruct c as [[] [] [] [] [] [] [] []]; vm_compute in H;
    try discriminate H; reflexivity.
Qed.

Lemma Quote_printable (isPrintTable : N -> bool) (s : string) :
  printableText s = true ->
  strconv.Quote isPrintTable s = inDoubleQuotes (backslashed s).
Proof.
  intros H. unfold strconv.Quote, inDoubleQuotes. f_equal.
  induction s as [|c s IH]; [reflexivity|].
  cbn [printableText] in H. apply andb_prop in H. destruct H as [Hc Hs].
  rewrite (quoteLoop_printable isPrintTable c s Hc), (IH Hs).
  cbn [backslashed]. now destruct (_ || _).
Qed.

(** X27.  For a CreateEvent whose ref is printable ASCII, the ref is
    printed between double quotes with a backslash put before each double
    quote and each backslash in it, and with no other change. *)
Theorem formatEvent_create_escapes (isPrintTable : N -> bool) (e : Event)
    (p : CreatePayload) :
  Type_ e = "CreateEvent" ->
  UnmarshalCreatePayload (Payload e) = Ok p ->
  RefType p <> "repository" -> Ref p <> EmptyString ->
  printableText (Ref p) = true ->
  formatEvent isPrintTable e
  = "Created " ++ RefType p ++ " " ++ inDoubleQuotes (backslashed (Ref p))
    ++ " in " ++ Name (Repo_ e).
Proof.
  intros Ht Hp Hr Hf Hpr. rewrite (formatEvent_create _ _ Ht), Hp.
  apply String.eqb_neq in Hr, Hf. rewrite Hr, Hf. cbn [negb].
  now rewrite (Quote_printable isPrintTable (Ref p) Hpr).
Qed.

(** X27 at a tag with two double quotes and two backslashes in its name. *)
Lemma formatEvent_create_escapes_witness :
  formatEvent emptyTable
    (event "CreateEvent" "octo/cat"
       (js "{'ref_type':'tag','ref':'v\'1\'\\\\x'}"))
  = js "Created tag 'v\'1\'\\\\x' in octo/cat".
Proof.
  apply (formatEvent_create_escapes emptyTable
           (event "CreateEvent" "octo/cat"
              (js "{'ref_type':'tag','ref':'v\'1\'\\\\x'}"))
           {| RefType := "tag"; Ref := js "v'1'\\x" |});
    (reflexivity || discriminate).
Defined.

(** ** A whole run that ends with a status other than 200 *)

(** X28.  A whole run whose request is answered with a status other than
    200: nothing is written to standard output, the exit status is 1, and
    the error written after the word error is, when the body of the
    response cannot be read, the error of reading the response; and when
    the body has been read, it says that the user is not found for status
    404, forbidden with the body for status 403, and gives the status
    line and the body for any other status. *)
Theorem main_status_failure (isPrintTable : N -> bool) (w : World)
    (prog user : string) (res : Response) :
  rejectURL w (eventsURL user) = None ->
  Do w 10 (eventsRequest (eventsURL user)) = Ok res ->
  StatusCode res <> 200%Z ->
  main isPrintTable w [prog; user]
  = {| stdout := EmptyString;
       stderr :=
         [ErrorText "error"
            match Body res with
            | Err err => wrapError "failed to read response " err
            | Ok body =>
              errorString
                (if (StatusCode res =? 404)%Z
                 then "user " ++ user ++ " not found"
                 else if (StatusCode res =? 403)%Z
                 then "forbidden 403, response " ++ body
                 else "github api error " ++ Status res ++ " resp: "
                      ++ body)
            end];
       exitCode := 1 |}.
Proof.
  intros Hurl Hdo Hs. unfold main. cbn [List.length Nat.eqb negb nth].
  unfold fetchEvents. rewrite Hurl, Hdo.
  destruct (Body res) as [body|err]; [|reflexivity].
  apply Z.eqb_neq in Hs. rewrite Hs.
  destruct (StatusCode res =? 404)%Z; [reflexivity|].
  destruct (StatusCode res =? 403)%Z; reflexivity.
Qed.

(** X28 at a response with status 403, and at a response with status 404
    whose body cannot be read. *)
Lemma main_status_failure_witness :
  main emptyTable (answering 403 "403 Forbidden" "rate limit exceeded")
    ["github-activity"; "octocat"]
  = {| stdout := EmptyString;
       stderr :=
         [ErrorText "error"
            (errorString "forbidden 403, response rate limit exceeded")];
       exitCode := 1 |}
  /\ main emptyTable
       (truncating 404 "404 Not Found" (externalError "unexpected EOF"))
       ["github-activity"; "octocat"]
     = {| stdout := EmptyString;
          stderr :=
            [ErrorText "error"
               (wrapError "failed to read response "
                  (externalError "unexpected EOF"))];
          exitCode := 1 |}.
Proof.
  split.
  - apply (main_status_failure emptyTable
             (answering 403 "403 Forbidden" "rate limit exceeded")
             "github-activity" "octocat"
             {| StatusCode := 403; Status := "403 Forbidden";
                Body := Ok "rate limit exceeded" |});
      (reflexivity || discriminate).
  - apply (main_status_failure emptyTable
             (truncating 404 "404 Not Found" (externalError "unexpected EOF"))
             "github-activity" "octocat"
             {| StatusCode := 404; Status := "404 Not Found";
                Body := Err (externalError "unexpected EOF") |});
      (reflexivity || discriminate).
Defined.
